(** * NotiBoost Node.js SDK: the retrying request dispatcher and its wrappers

    A shallow embedding of [src/index.js]: the client constructor, the
    header construction, the retry loop of [request], the response parsing
    of [_makeRequest], and the two wrappers that carry logic of their own
    ([events.ingest] and [templates.list]).

    Conventions of the embedding.
    - Strings are byte strings (the UTF-8 encoding of the JavaScript
      string), so [Buffer.byteLength] is [String.length].
    - The numbers the dispatcher computes with (status codes, attempt
      indices, retry counts, delays) are integers, or [NaN] when [parseInt]
      finds no digits. A double holds every integer up to 2^53 exactly,
      and every [2^attempt * 1000]; larger integers are rounded to the
      nearest double where the code computes them ([parseInt], [*]).
    - A response body is the list of [Buffer]s it arrives in;
      [data += chunk] decodes each of them on its own.
    - An [async] function is a computation in the monad [M]: it threads the
      state (client object, caller's heap, number of HTTP calls made, log of
      effects) and ends normally (promise fulfilled) or by a throw (promise
      rejected).
    - What the runtime provides ([JSON.parse], [JSON.stringify], the URL
      parser, the printing of numbers, the decoding of a [Buffer]) is the
      interface [Platform]; the network is an oracle giving the raw
      outcome of the n-th HTTP call. *)

From Stdlib Require Import ZArith Lia Ascii.
From stdpp Require Import gmap strings list fin_maps pretty.

Set Warnings "-register-all".
Open Scope Z_scope.

(** ** JavaScript values *)

(** A number is [NaN] or a double that holds an integer, [Int z] for
    the integer [z]. Infinities are left out: the numbers of the
    dispatcher stay below 2^1024 for every header of less than 300
    digits and every attempt below 1000. *)
Inductive number : Type :=
| NaN
| Int (z : Z).

(** The double nearest to an integer, the one with the even significand
    when two are as near: integers up to 2^53 are doubles, a larger one
    keeps its 53 leading bits, rounded by the bits that follow. *)
Definition to_double (z : Z) : Z :=
  let a := Z.abs z in
  if a <=? 2 ^ 53 then z
  else
    let e := Z.log2 a - 52 in
    let q := Z.shiftr a e in
    let rest := Z.land a (Z.ones e) in
    let half := Z.shiftl 1 (e - 1) in
    let q' := if (half <? rest) || ((rest =? half) && Z.odd q) then q + 1 else q in
    Z.sgn z * Z.shiftl q' e.

(** [a * b] on numbers: the product, rounded; [NaN] is absorbing. *)
Definition number_mul (a b : number) : number :=
  match a, b with
  | Int x, Int y => Int (to_double (x * y))
  | _, _ => NaN
  end.

(** Objects keep their properties in insertion order. *)
Inductive jsvalue : Type :=
| JUndefined
| JNull
| JBool (b : bool)
| JNum (n : number)
| JStr (s : string)
| JArr (items : list jsvalue)
| JObj (fields : list (string * jsvalue)).

Abbreviation object := (list (string * jsvalue)).

(** ToBoolean. *)
Definition truthy (v : jsvalue) : bool :=
  match v with
  | JUndefined | JNull => false
  | JBool b => b
  | JNum NaN => false
  | JNum (Int z) => negb (z =? 0)
  | JStr s => negb (String.eqb s "")
  | JArr _ | JObj _ => true
  end.

(** [a || b]. *)
Definition js_or (a b : jsvalue) : jsvalue := if truthy a then a else b.

Fixpoint lookup_field (k : string) (o : object) : option jsvalue :=
  match o with
  | [] => None
  | (k', v) :: o' => if String.eqb k' k then Some v else lookup_field k o'
  end.

(** [o[k]]: a missing property reads as [undefined]. *)
Definition get_field (o : object) (k : string) : jsvalue :=
  default JUndefined (lookup_field k o).

(** [o[k] = v]: an existing property keeps its place, a new one goes last. *)
Fixpoint set_field (k : string) (v : jsvalue) (o : object) : object :=
  match o with
  | [] => [(k, v)]
  | (k', v') :: o' =>
      if String.eqb k' k then (k', v) :: o' else (k', v') :: set_field k v o'
  end.

(** [{...a, ...b}]: the properties of [b] are written over those of [a]. *)
Definition spread (a b : object) : object :=
  fold_left (fun acc kv => set_field (fst kv) (snd kv) acc) b a.

(** [v?.k] on JSON data: only objects carry a property of that name. *)
Definition optional_get (v : jsvalue) (k : string) : jsvalue :=
  match v with
  | JObj o => get_field o k
  | _ => JUndefined
  end.

(** ** [parseInt(s, 10)]

    Leading white space is skipped, then an optional sign, then the
    longest run of decimal digits is read, and the result is the double
    nearest to their value; without a digit the result is [NaN]. *)

(** White space and line terminators of ECMAScript, in UTF-8: the
    one-byte ones (tab, LF, VT, FF, CR, space), U+00A0 in two bytes, and
    U+1680, U+2000 to U+200A, U+2028, U+2029, U+202F, U+205F, U+3000 and
    U+FEFF in three. *)
Definition is_space (c : ascii) : bool :=
  let n := nat_of_ascii c in
  ((9 <=? n) && (n <=? 13))%nat || (n =? 32)%nat.

Definition is_space2 (c1 c2 : ascii) : bool :=
  ((nat_of_ascii c1 =? 194) && (nat_of_ascii c2 =? 160))%nat.

Definition is_space3 (c1 c2 c3 : ascii) : bool :=
  let '(a, b, c) := (nat_of_ascii c1, nat_of_ascii c2, nat_of_ascii c3) in
  (((a =? 225) && (b =? 154) && (c =? 128))
   || ((a =? 226) && (b =? 128)
       && (((128 <=? c) && (c <=? 138)) || (c =? 168) || (c =? 169) || (c =? 175)))
   || ((a =? 226) && (b =? 129) && (c =? 159))
   || ((a =? 227) && (b =? 128) && (c =? 128))
   || ((a =? 239) && (b =? 187) && (c =? 191)))%nat.

Fixpoint skip_space (s : string) : string :=
  match s with
  | String c1 s1 =>
      if is_space c1 then skip_space s1
      else
        match s1 with
        | String c2 s2 =>
            if is_space2 c1 c2 then skip_space s2
            else
              match s2 with
              | String c3 s3 => if is_space3 c1 c2 c3 then skip_space s3 else s
              | EmptyString => s
              end
        | EmptyString => s
        end
  | EmptyString => s
  end.

Definition digit_of (c : ascii) : option Z :=
  let n := nat_of_ascii c in
  if ((48 <=? n) && (n <=? 57))%nat then Some (Z.of_nat n - 48) else None.

(** The value of the longest prefix of decimal digits, [None] when empty. *)
Fixpoint leading_digits (s : string) (acc : option Z) : option Z :=
  match s with
  | String c s' =>
      match digit_of c with
      | Some d => leading_digits s' (Some (10 * default 0 acc + d))
      | None => acc
      end
  | EmptyString => acc
  end.

Definition parseInt (s : string) : number :=
  let s := skip_space s in
  let '(neg, s) :=
    match s with
    | String "-" s' => (true, s')
    | String "+" s' => (false, s')
    | _ => (false, s)
    end in
  match leading_digits s None with
  | Some n => Int (to_double (if neg then - n else n))
  | None => NaN
  end.

(** ** Errors *)

(** A [NotiBoostError] holds the message as [Error] stores it, which is
    the string the constructor's argument converts to. *)
Inductive js_error : Type :=
| NotiBoostError (message : string) (statusCode : Z) (response : jsvalue)
| Error (message : string)
| TypeError (message : string).

(** A thrown value: an error object, or [undefined] (the value of
    [lastError] before any error was caught). *)
Inductive thrown : Type :=
| Exn (e : js_error)
| ExnUndefined.

(** [error instanceof NotiBoostError]. *)
Definition instanceof_NotiBoostError (t : thrown) : bool :=
  match t with
  | Exn (NotiBoostError _ _ _) => true
  | _ => false
  end.

(** ** Client configuration: [NotiBoostClient.constructor] *)

Record Options : Type := {
  opt_apiKey : option string;
  opt_baseURL : option string;
  opt_timeout : option Z;
  opt_retries : option Z
}.

Record NotiBoostClient : Type := {
  apiKey : string;
  baseURL : string;
  timeout : Z;
  retries : Z
}.

(** [o || d] for an optional string: absent and empty are both falsy. *)
Definition string_or (o : option string) (d : string) : string :=
  match o with
  | Some s => if String.eqb s "" then d else s
  | None => d
  end.

(** [o || d] for an optional number: absent and [0] are both falsy. *)
Definition Z_or (o : option Z) (d : Z) : Z :=
  match o with
  | Some z => if z =? 0 then d else z
  | None => d
  end.

Definition new_NotiBoost (options : Options) : js_error + NotiBoostClient :=
  match opt_apiKey options with
  | Some key =>
      if String.eqb key "" then inl (Error "API key is required")
      else
        inr {| apiKey := key;
               baseURL := string_or (opt_baseURL options) "https://api.notiboost.com";
               timeout := Z_or (opt_timeout options) 30000;
               retries := Z_or (opt_retries options) 3 |}
  | None => inl (Error "API key is required")
  end.

(** ** The runtime and the network *)

Record URL : Type := {
  url_protocol : string;
  url_hostname : string;
  url_port : string;
  url_pathname : string;
  url_search : string
}.

Class Platform : Type := {
  (** [JSON.parse]; [None] when it throws a [SyntaxError]. *)
  JSON_parse : string -> option jsvalue;
  (** [JSON.stringify] on a truthy value. *)
  JSON_stringify : jsvalue -> string;
  (** [new URL(s)]; [None] when it throws a [TypeError]. *)
  URL_parse : string -> option URL;
  (** [String(n)] for a number. *)
  Number_toString : number -> string;
  (** [chunk.toString()] for a [Buffer], given by its bytes: the text it
      decodes to as UTF-8, every ill-formed part replaced by U+FFFD. *)
  Buffer_toString : string -> string
}.

(** What the HTTP layer reports for one call: a response (status line,
    headers with lower-cased names, the body as the [Buffer]s it arrives
    in, each given by its bytes), an
    ['error'] event, or a ['timeout'] event. Every call is taken to end
    in one of the three, as [_makeRequest] settles its promise in no
    other case. *)
Inductive raw_outcome : Type :=
| RawResponse (status : Z) (hdrs : gmap string string) (chunks : list string)
| RawError (message : string)
| RawTimeout.

Record RequestOptions : Type := {
  ro_hostname : string;
  ro_port : jsvalue;
  ro_path : string;
  ro_method : string;
  ro_headers : object;
  ro_timeout : Z
}.

Record Response : Type := {
  statusCode : Z;
  headers : gmap string string;
  data : jsvalue
}.

Inductive effect : Type :=
| HttpRequest (options : RequestOptions) (written : option string)
| Sleep (ms : number).

(** ** State and the monad of asynchronous computations *)

Abbreviation loc := positive.

Record state : Type := {
  this : NotiBoostClient;
  heap : gmap loc object;
  calls : nat;
  log : list effect
}.

Inductive result (A : Type) : Type :=
| Normal (a : A)
| Thrown (t : thrown)
| OutOfFuel.

Arguments Normal {A} a.
Arguments Thrown {A} t.
Arguments OutOfFuel {A}.

Definition M (A : Type) : Type := state -> result A * state.

Definition ret {A} (a : A) : M A := fun st => (Normal a, st).

Definition bind {A B} (m : M A) (k : A -> M B) : M B :=
  fun st =>
    match m st with
    | (Normal a, st') => k a st'
    | (Thrown t, st') => (Thrown t, st')
    | (OutOfFuel, st') => (OutOfFuel, st')
    end.

Definition throw {A} (t : thrown) : M A := fun st => (Thrown t, st).

Definition try_catch {A} (m : M A) (handler : thrown -> M A) : M A :=
  fun st =>
    match m st with
    | (Thrown t, st') => handler t st'
    | r => r
    end.

(** Reading a field of [this]. *)
Definition read {A} (f : NotiBoostClient -> A) : M A :=
  fun st => (Normal (f (this st)), st).

(** Appending an effect to the log. *)
Definition logged (e : effect) (st : state) : state :=
  {| this := this st; heap := heap st; calls := calls st; log := log st ++ [e] |}.

(** One more HTTP call made. *)
Definition called (st : state) : state :=
  {| this := this st; heap := heap st; calls := S (calls st); log := log st |}.

Definition emit (e : effect) : M unit := fun st => (Normal tt, logged e st).

Notation "x <- m ;; k" := (bind m (fun x => k))
  (at level 100, m at next level, right associativity).
Notation "m ;;; k" := (bind m (fun _ => k))
  (at level 100, right associativity).

(** ** [new URLSearchParams(options).toString()]

    The runtime's application/x-www-form-urlencoded serialiser: a space
    becomes [+], the bytes of [*-._0-9A-Za-z] stand for themselves, every
    other byte is written [%HH] in upper-case hexadecimal; pairs are
    written [name=value] and joined by [&]. The options mapping is given
    as its list of own properties, in insertion order, with the values
    already converted to strings. *)

Definition hex_digit (n : nat) : ascii :=
  ascii_of_nat (if (n <? 10)%nat then 48 + n else 55 + n).

Definition percent_byte (c : ascii) : string :=
  let n := nat_of_ascii c in
  String "%" (String (hex_digit (n / 16)) (String (hex_digit (n mod 16)) "")).

Definition urlencoded_plain (c : ascii) : bool :=
  let n := nat_of_ascii c in
  ((n =? 42) || (n =? 45) || (n =? 46) || (n =? 95)
   || ((48 <=? n) && (n <=? 57))
   || ((65 <=? n) && (n <=? 90))
   || ((97 <=? n) && (n <=? 122)))%nat.

Definition urlencode_byte (c : ascii) : string :=
  if (nat_of_ascii c =? 32)%nat then "+"
  else if urlencoded_plain c then String c ""
  else percent_byte c.

Fixpoint urlencode (s : string) : string :=
  match s with
  | String c s' => urlencode_byte c +:+ urlencode s'
  | EmptyString => ""
  end.

Definition urlencode_pair (kv : string * string) : string :=
  urlencode (fst kv) +:+ "=" +:+ urlencode (snd kv).

Definition URLSearchParams_toString (params : list (string * string)) : string :=
  String.concat "&" (map urlencode_pair params).

(** The parser of the same format, as the URL Standard gives it and as
    the receiving side reads a query: the text is cut at every [&], empty
    pieces are dropped, a piece is cut at its first [=] into a name and a
    value, [+] stands for a space, and [%HH] with two hexadecimal digits
    for the byte they name. *)
Definition hex_value (c : ascii) : option nat :=
  let n := nat_of_ascii c in
  if ((48 <=? n) && (n <=? 57))%nat then Some (n - 48)%nat
  else if ((65 <=? n) && (n <=? 70))%nat then Some (n - 55)%nat
  else if ((97 <=? n) && (n <=? 102))%nat then Some (n - 87)%nat
  else None.

Fixpoint percent_decode (s : string) : string :=
  match s with
  | String c s' =>
      if Ascii.eqb c "%" then
        match s' with
        | String h1 (String h2 s'') =>
            match hex_value h1, hex_value h2 with
            | Some a, Some b =>
                String (ascii_of_nat (16 * a + b)) (percent_decode s'')
            | _, _ => String c (percent_decode s')
            end
        | _ => String c (percent_decode s')
        end
      else String c (percent_decode s')
  | EmptyString => ""
  end.

Fixpoint plus_to_space (s : string) : string :=
  match s with
  | String c s' => String (if Ascii.eqb c "+" then " "%char else c) (plus_to_space s')
  | EmptyString => ""
  end.

Definition urldecode (s : string) : string := percent_decode (plus_to_space s).

(** The pieces of a text between the occurrences of [c]. *)
Fixpoint split_on (c : ascii) (s : string) : list string :=
  match s with
  | EmptyString => [""]
  | String x s' =>
      if Ascii.eqb x c then "" :: split_on c s'
      else
        match split_on c s' with
        | piece :: rest => String x piece :: rest
        | [] => [String x ""]
        end
  end.

(** A text cut at the first [c]: what is before it and what is after
    it; without a [c], the whole text and nothing. *)
Fixpoint split_first (c : ascii) (s : string) : string * string :=
  match s with
  | EmptyString => ("", "")
  | String x s' =>
      if Ascii.eqb x c then ("", s')
      else let '(before, after) := split_first c s' in (String x before, after)
  end.

Definition parse_pair (piece : string) : string * string :=
  let '(name, value) := split_first "=" piece in (urldecode name, urldecode value).

Definition URLSearchParams_parse (query : string) : list (string * string) :=
  map parse_pair
    (List.filter (fun piece => negb (String.eqb piece "")) (split_on "&" query)).

(** ** The dispatcher *)

Section Dispatcher.

Context {platform : Platform}.

(** [net n] is what the HTTP layer reports for the [n]-th call made. *)
Variable net : nat -> raw_outcome.

(** [String(v)] for a value of JSON data; [None] when the conversion
    throws a [TypeError]. An object converts by [Object.prototype.toString]
    unless it has a property [toString] of its own, which is no function,
    and then neither it nor [valueOf] gives a primitive. An array joins
    the conversions of its elements with commas, [null] and [undefined]
    counting as empty. *)
Fixpoint ToString (v : jsvalue) : option string :=
  match v with
  | JUndefined => Some "undefined"
  | JNull => Some "null"
  | JBool b => Some (if b then "true" else "false")
  | JNum n => Some (Number_toString n)
  | JStr s => Some s
  | JArr items =>
      let fix join (l : list jsvalue) : option (list string) :=
        match l with
        | [] => Some []
        | x :: l' =>
            match match x with
                  | JUndefined | JNull => Some ""
                  | _ => ToString x
                  end, join l' with
            | Some s, Some ss => Some (s :: ss)
            | _, _ => None
            end
        end in
      option_map (String.concat ",") (join items)
  | JObj fields =>
      match lookup_field "toString" fields with
      | Some _ => None
      | None => Some "[object Object]"
      end
  end.

(** What evaluating [new NotiBoostError(message, statusCode, response)]
    ends in: the error, whose message is [String(message)] (empty when
    [message] is [undefined]), or the [TypeError] that [super(message)]
    throws when the message does not convert. *)
Definition new_NotiBoostError (message : jsvalue) (statusCode : Z)
    (response : jsvalue) : js_error :=
  match message with
  | JUndefined => NotiBoostError "" statusCode response
  | _ =>
      match ToString message with
      | Some text => NotiBoostError text statusCode response
      | None => TypeError "Cannot convert object to primitive value"
      end
  end.

(** [data += chunk] over the chunks of a response, from [data = '']:
    every chunk is decoded on its own. *)
Definition received (chunks : list string) : string :=
  fold_left (fun data chunk => data +:+ Buffer_toString chunk) chunks "".

(** The ['end'] handler of [_makeRequest]: an empty body is the empty
    object, a body that does not parse becomes [{ message: body }]. *)
Definition parse_body (body : string) : jsvalue :=
  if String.eqb body "" then JObj []
  else
    match JSON_parse body with
    | Some v => v
    | None => JObj [("message", JStr body)]
    end.

(** [if (body) req.write(body)]. *)
Definition written_body (body : option string) : option string :=
  match body with
  | Some b => if String.eqb b "" then None else Some b
  | None => None
  end.

Definition _makeRequest (options : RequestOptions) (body : option string)
  : M Response :=
  fun st =>
    let st' := called (logged (HttpRequest options (written_body body)) st) in
    match net (calls st) with
    | RawResponse status hdrs chunks =>
        (Normal {| statusCode := status; headers := hdrs;
                   data := parse_body (received chunks) |}, st')
    | RawError message => (Thrown (Exn (Error message)), st')
    | RawTimeout => (Thrown (Exn (Error "Request timeout")), st')
    end.

Definition _sleep (ms : number) : M unit := emit (Sleep ms).

(** How one pass through the body of the [for] loop ends when it does not
    throw: [continue] (with the current [lastError]) or [return v]. *)
Inductive ctl : Type :=
| Continue (lastError : thrown)
| Return (v : jsvalue).

(** [response.headers['retry-after'] || '1']. *)
Definition retry_after_text (hdrs : gmap string string) : string :=
  string_or (hdrs !! "retry-after") "1".

(** The [try { ... } catch (error) { ... }] of one loop pass. *)
Definition attempt_once (requestOptions : RequestOptions) (body : option string)
    (attempt : Z) (lastError : thrown) : M ctl :=
  try_catch
    (response <- _makeRequest requestOptions body ;;
     if (200 <=? statusCode response) && (statusCode response <? 300) then
       ret (Return (data response))
     else
       retries_ <- read retries ;;
       if (statusCode response =? 429) && (attempt <? retries_) then
         let retryAfter := parseInt (retry_after_text (headers response)) in
         _sleep (number_mul retryAfter (Int 1000)) ;;;
         ret (Continue lastError)
       else
         throw (Exn (new_NotiBoostError
                       (js_or (optional_get (data response) "message")
                              (JStr ("HTTP " +:+ pretty (statusCode response))))
                       (statusCode response)
                       (data response))))
    (fun error =>
       retries_ <- read retries ;;
       if (attempt <? retries_) && negb (instanceof_NotiBoostError error) then
         _sleep (Int (2 ^ attempt * 1000)) ;;;
         ret (Continue error)
       else
         throw error).

(** [for (let attempt = 0; attempt <= this.retries; attempt++) { ... }
    throw lastError;] *)
Fixpoint request_loop (fuel : nat) (requestOptions : RequestOptions)
    (body : option string) (attempt : Z) (lastError : thrown) : M jsvalue :=
  match fuel with
  | O => fun st => (OutOfFuel, st)
  | S fuel' =>
      retries_ <- read retries ;;
      if attempt <=? retries_ then
        c <- attempt_once requestOptions body attempt lastError ;;
        match c with
        | Return v => ret v
        | Continue lastError' =>
            request_loop fuel' requestOptions body (attempt + 1) lastError'
        end
      else
        throw lastError
  end.

(** The [headers] object of [request], before [Content-Length] is set. *)
Definition default_headers (key : string) : object :=
  [("Authorization", JStr ("Bearer " +:+ key));
   ("Content-Type", JStr "application/json")].

(** [data && (method === 'POST' || method === 'PUT')] guards the body. *)
Definition request_body (method : string) (data : jsvalue) : option string :=
  if truthy data && (String.eqb method "POST" || String.eqb method "PUT")
  then Some (JSON_stringify data)
  else None.

Definition request_headers (key : string) (overrides : object)
    (body : option string) : object :=
  let headers := spread (default_headers key) overrides in
  match body with
  | Some b => set_field "Content-Length" (JNum (Int (Z.of_nat (String.length b)))) headers
  | None => headers
  end.

(** [url.port || (url.protocol === 'https:' ? 443 : 80)]. *)
Definition request_port (url : URL) : jsvalue :=
  if String.eqb (url_port url) "" then
    JNum (Int (if String.eqb (url_protocol url) "https:" then 443 else 80))
  else JStr (url_port url).

(** The [requestOptions] object of [request]. *)
Definition request_options (c : NotiBoostClient) (url : URL) (method : string)
    (overrides : object) (body : option string) : RequestOptions :=
  {| ro_hostname := url_hostname url;
     ro_port := request_port url;
     ro_path := url_pathname url +:+ url_search url;
     ro_method := method;
     ro_headers := request_headers (apiKey c) overrides body;
     ro_timeout := timeout c |}.

(** [request(method, path, data = null, options = {})]; [overrides] is
    [options.headers], empty when absent. *)
Definition request (method path : string) (data : jsvalue) (overrides : object)
  : M jsvalue :=
  base <- read baseURL ;;
  match URL_parse (base +:+ path) with
  | None => throw (Exn (TypeError "Invalid URL"))
  | Some url =>
      let body := request_body method data in
      requestOptions <- read (fun c => request_options c url method overrides body) ;;
      retries_ <- read retries ;;
      request_loop (S (Z.to_nat (retries_ + 1))) requestOptions body 0 ExnUndefined
  end.

(** ** Resource wrappers *)

(** Reading the object a reference points to; a dangling reference stands
    for a value that is not an object. *)
Definition load (l : loc) : M object :=
  fun st =>
    match heap st !! l with
    | Some o => (Normal o, st)
    | None => (Thrown (Exn (TypeError "Cannot read properties")), st)
    end.

(** [l.k = v] on the caller's object. *)
Definition store_field (l : loc) (k : string) (v : jsvalue) : M unit :=
  fun st =>
    (Normal tt,
     {| this := this st; heap := alter (set_field k v) l (heap st);
        calls := calls st; log := log st |}).

(** [events.ingest(event)]; [now] is [new Date().toISOString()] at the
    call. [request] serialises its [data] before it first suspends, so
    the payload is the content of the caller's object after the write. *)
Definition EventsClient_ingest (now : string) (event : loc) : M jsvalue :=
  before <- load event ;;
  (if negb (truthy (get_field before "occurred_at"))
   then store_field event "occurred_at" (JStr now)
   else ret tt) ;;;
  payload <- load event ;;
  request "POST" "/api/v1/events" (JObj payload) [].

(** [templates.list(options = {})]. *)
Definition TemplatesClient_list (options : list (string * string)) : M jsvalue :=
  let query := URLSearchParams_toString options in
  let path :=
    if negb (String.eqb query "") then "/api/v1/templates?" +:+ query
    else "/api/v1/templates" in
  request "GET" path JNull [].

End Dispatcher.

(** ** The other wrappers, and the protocol [_makeRequest] picks *)

(** [options.port === 443 || options.port === undefined ? https : http]
    in [_makeRequest]: the module the call goes through. *)
Inductive protocol : Type :=
| Https
| Http.

Definition makeRequest_protocol (options : RequestOptions) : protocol :=
  match ro_port options with
  | JNum (Int 443) | JUndefined => Https
  | _ => Http
  end.

Section Wrappers.

Context {platform : Platform}.
Variable net : nat -> raw_outcome.

(** [events.ingestBatch(events)]: the payload is [{ events }]. *)
Definition EventsClient_ingestBatch (events : jsvalue) : M jsvalue :=
  request net "POST" "/api/v1/events/batch" (JObj [("events", events)]) [].

Definition UsersClient_create (user : jsvalue) : M jsvalue :=
  request net "POST" "/api/v1/users" user [].

Definition UsersClient_get (userId : string) : M jsvalue :=
  request net "GET" ("/api/v1/users/" +:+ userId) JNull [].

Definition UsersClient_update (userId : string) (data : jsvalue) : M jsvalue :=
  request net "PUT" ("/api/v1/users/" +:+ userId) data [].

Definition UsersClient_delete (userId : string) : M jsvalue :=
  request net "DELETE" ("/api/v1/users/" +:+ userId) JNull [].

Definition UsersClient_setChannelData (userId : string) (channelData : jsvalue)
  : M jsvalue :=
  request net "PUT" ("/api/v1/users/" +:+ userId +:+ "/channel_data") channelData [].

Definition UsersClient_setPreferences (userId : string) (preferences : jsvalue)
  : M jsvalue :=
  request net "PUT" ("/api/v1/users/" +:+ userId +:+ "/preferences") preferences [].

(** [users.createBatch(users)]: the payload is [{ users }]. *)
Definition UsersClient_createBatch (users : jsvalue) : M jsvalue :=
  request net "POST" "/api/v1/users/batch" (JObj [("users", users)]) [].

Definition FlowsClient_create (flow : jsvalue) : M jsvalue :=
  request net "POST" "/api/v1/flows" flow [].

Definition TemplatesClient_create (template : jsvalue) : M jsvalue :=
  request net "POST" "/api/v1/templates" template [].

Definition TemplatesClient_get (templateId : string) : M jsvalue :=
  request net "GET" ("/api/v1/templates/" +:+ templateId) JNull [].

Definition TemplatesClient_update (templateId : string) (data : jsvalue)
  : M jsvalue :=
  request net "PUT" ("/api/v1/templates/" +:+ templateId) data [].

Definition WebhooksClient_create (webhook : jsvalue) : M jsvalue :=
  request net "POST" "/api/v1/webhooks" webhook [].

End Wrappers.

(** ** Vocabulary of the statements *)

(** The error a transport-level failure rejects with. *)
Definition transport_error (raw : raw_outcome) : option js_error :=
  match raw with
  | RawResponse _ _ _ => None
  | RawError message => Some (Error message)
  | RawTimeout => Some (Error "Request timeout")
  end.

(** The state once the HTTP call of a pass is made. *)
Definition after_call (requestOptions : RequestOptions) (body : option string)
    (st : state) : state :=
  called (logged (HttpRequest requestOptions (written_body body)) st).

(** What [throw new NotiBoostError(...)] in [request] throws for a
    response with this status and parsed body. *)
Definition api_error {platform : Platform} (status : Z) (d : jsvalue) : js_error :=
  new_NotiBoostError
    (js_or (optional_get d "message") (JStr ("HTTP " +:+ pretty status)))
    status d.

(** An effect of a dispatch with these request options: the HTTP call
    itself, or a sleep. *)
Definition effect_of (ro : RequestOptions) (body : option string) (e : effect)
  : Prop :=
  match e with
  | HttpRequest o w => o = ro /\ w = written_body body
  | Sleep _ => True
  end.

(** The delays slept in a log, in order. *)
Fixpoint sleeps (l : list effect) : list number :=
  match l with
  | [] => []
  | HttpRequest _ _ :: l' => sleeps l'
  | Sleep ms :: l' => ms :: sleeps l'
  end.

(** The delays of [n] consecutive exponential backoffs from pass
    [attempt] on: [2^attempt], [2^(attempt+1)], ... seconds. *)
Fixpoint backoff (n : nat) (attempt : Z) : list number :=
  match n with
  | O => []
  | S n' => Int (2 ^ attempt * 1000) :: backoff n' (attempt + 1)
  end.

(** The sum of delays, as JavaScript adds numbers: [NaN] is absorbing. *)
Definition number_add (a b : number) : number :=
  match a, b with
  | Int x, Int y => Int (x + y)
  | _, _ => NaN
  end.

Definition total_ms (l : list number) : number := fold_right number_add (Int 0) l.

(** The number of occurrences of a byte in a string. *)
Fixpoint count_char (c : ascii) (s : string) : nat :=
  match s with
  | EmptyString => O
  | String c' s' => (if Ascii.eqb c' c then 1 else 0) + count_char c s'
  end.

(** The number of HTTP calls in a log. *)
Fixpoint count_requests (l : list effect) : nat :=
  match l with
  | [] => O
  | HttpRequest _ _ :: l' => S (count_requests l')
  | Sleep _ :: l' => count_requests l'
  end.

(** ** A runtime for the examples

    One instance of [Platform], used to run the model on concrete inputs.
    [example_JSON_stringify] serialises the values of the model as
    [JSON.stringify] does. [example_JSON_parse] agrees with [JSON.parse]
    on the texts the examples use: the empty object, the object whose
    [ok] is [true], and the objects whose [message] is the empty string,
    the number 42, and an object with a field [toString], which are
    JSON, and [OK], [slow down], the empty text and a text that starts
    with [O] and ends with [K], which are not. [example_URL_parse] reads
    URLs under the default base URL that have no fragment.
    [example_Number_toString] prints integers in decimal digits, and
    [example_Buffer_toString] is the UTF-8 decoder. *)

Definition dquote : string := String "034"%char "".

Definition text_ok_true : string :=
  "{" +:+ dquote +:+ "ok" +:+ dquote +:+ ":true}".

Definition text_empty_message : string :=
  "{" +:+ dquote +:+ "message" +:+ dquote +:+ ":" +:+ dquote +:+ dquote +:+ "}".

Definition text_a_1 : string :=
  "{" +:+ dquote +:+ "a" +:+ dquote +:+ ":1}".

Definition text_message_42 : string :=
  "{" +:+ dquote +:+ "message" +:+ dquote +:+ ":42}".

Definition text_message_object : string :=
  "{" +:+ dquote +:+ "message" +:+ dquote +:+ ":{"
      +:+ dquote +:+ "toString" +:+ dquote +:+ ":1}}".

Definition example_JSON_parse (s : string) : option jsvalue :=
  if String.eqb s "{}" then Some (JObj [])
  else if String.eqb s text_ok_true then Some (JObj [("ok", JBool true)])
  else if String.eqb s text_empty_message then Some (JObj [("message", JStr "")])
  else if String.eqb s text_message_42 then
    Some (JObj [("message", JNum (Int 42))])
  else if String.eqb s text_message_object then
    Some (JObj [("message", JObj [("toString", JNum (Int 1))])])
  else None.

Definition hex_lower (n : nat) : ascii :=
  ascii_of_nat (if (n <? 10)%nat then 48 + n else 87 + n).

(** The escapes of a JSON string: the quote, the backslash, and the
    control characters. *)
Definition json_escape_char (c : ascii) : string :=
  let n := nat_of_ascii c in
  let backslash := String "092"%char "" in
  if (n =? 34)%nat then backslash +:+ dquote
  else if (n =? 92)%nat then backslash +:+ backslash
  else if (n =? 8)%nat then backslash +:+ "b"
  else if (n =? 9)%nat then backslash +:+ "t"
  else if (n =? 10)%nat then backslash +:+ "n"
  else if (n =? 12)%nat then backslash +:+ "f"
  else if (n =? 13)%nat then backslash +:+ "r"
  else if (n <? 32)%nat then
    backslash +:+ "u00" +:+ String (hex_lower (n / 16)) (String (hex_lower (n mod 16)) "")
  else String c "".

Fixpoint json_escape (s : string) : string :=
  match s with
  | String c s' => json_escape_char c +:+ json_escape s'
  | EmptyString => ""
  end.

Definition json_quote (s : string) : string := dquote +:+ json_escape s +:+ dquote.

(** [undefined] is written [null] in an array and left out of an
    object, and [NaN] is written [null]. *)
Fixpoint example_JSON_stringify (v : jsvalue) : string :=
  match v with
  | JUndefined | JNull | JNum NaN => "null"
  | JBool b => if b then "true" else "false"
  | JNum (Int z) => pretty z
  | JStr s => json_quote s
  | JArr items =>
      "[" +:+ String.concat "," (map example_JSON_stringify items) +:+ "]"
  | JObj fields =>
      let fix members (l : object) : list string :=
        match l with
        | [] => []
        | (_, JUndefined) :: l' => members l'
        | (k, v') :: l' =>
            (json_quote k +:+ ":" +:+ example_JSON_stringify v') :: members l'
        end in
      "{" +:+ String.concat "," (members fields) +:+ "}"
  end.

Fixpoint strip_prefix (p s : string) : option string :=
  match p, s with
  | EmptyString, _ => Some s
  | String a p', String b s' =>
      if Ascii.eqb a b then strip_prefix p' s' else None
  | String _ _, EmptyString => None
  end.

(** Splitting at the first [?]: the path name before it, the search from
    it on. *)
Fixpoint split_search (s : string) : string * string :=
  match s with
  | EmptyString => ("", "")
  | String c s' =>
      if Ascii.eqb c "?" then ("", s)
      else let '(p, q) := split_search s' in (String c p, q)
  end.

Definition example_URL_parse (s : string) : option URL :=
  match strip_prefix "https://api.notiboost.com" s with
  | Some rest =>
      let '(p, q) := split_search rest in
      Some {| url_protocol := "https:"; url_hostname := "api.notiboost.com";
              url_port := ""; url_pathname := p;
              url_search := if String.eqb q "?" then "" else q |}
  | None => None
  end.

(** Numbers are written in decimal digits, as [String] does below
    10^21. *)
Definition example_Number_toString (n : number) : string :=
  match n with
  | NaN => "NaN"
  | Int z => pretty z
  end.

(** U+FFFD in UTF-8. *)
Definition replacement : string :=
  String (ascii_of_nat 239) (String (ascii_of_nat 191) (String (ascii_of_nat 189) "")).

(** The UTF-8 decoder of the Encoding Standard, writing what it decodes
    in UTF-8 again: well-formed sequences are copied, and every maximal
    ill-formed part becomes U+FFFD. [needed] continuation bytes are
    awaited, the next one between [lo] and [hi]; [pending] holds the
    bytes of the sequence read so far. *)
Fixpoint utf8_decode (s : string) (needed lo hi : nat) (pending : string) : string :=
  match s with
  | EmptyString => if (needed =? 0)%nat then "" else replacement
  | String c s' =>
      let b := nat_of_ascii c in
      let first :=
        if (b <? 128)%nat then String c (utf8_decode s' 0 128 191 "")
        else if ((194 <=? b) && (b <=? 223))%nat then
          utf8_decode s' 1 128 191 (String c "")
        else if ((224 <=? b) && (b <=? 239))%nat then
          utf8_decode s' 2 (if (b =? 224)%nat then 160 else 128)
            (if (b =? 237)%nat then 159 else 191) (String c "")
        else if ((240 <=? b) && (b <=? 244))%nat then
          utf8_decode s' 3 (if (b =? 240)%nat then 144 else 128)
            (if (b =? 244)%nat then 143 else 191) (String c "")
        else replacement +:+ utf8_decode s' 0 128 191 "" in
      if (needed =? 0)%nat then first
      else if ((lo <=? b) && (b <=? hi))%nat then
        if (needed =? 1)%nat then
          pending +:+ String c (utf8_decode s' 0 128 191 "")
        else utf8_decode s' (needed - 1) 128 191 (pending +:+ String c "")
      else replacement +:+ first
  end.

Definition example_Buffer_toString (bytes : string) : string :=
  utf8_decode bytes 0 128 191 "".

Definition example_platform : Platform :=
  {| JSON_parse := example_JSON_parse;
     JSON_stringify := example_JSON_stringify;
     URL_parse := example_URL_parse;
     Number_toString := example_Number_toString;
     Buffer_toString := example_Buffer_toString |}.

(** Clients as the constructor builds them: [with_retries r] is
    [new NotiBoost({ apiKey: 'k', retries: r })], [default_client] is
    [new NotiBoost({ apiKey: 'k' })]. *)
Definition client_of (options : Options) : NotiBoostClient :=
  match new_NotiBoost options with
  | inr c => c
  | inl _ => {| apiKey := ""; baseURL := ""; timeout := 0; retries := 0 |}
  end.

Definition with_retries (r : Z) : NotiBoostClient :=
  client_of {| opt_apiKey := Some "k"; opt_baseURL := None;
               opt_timeout := None; opt_retries := Some r |}.

Definition default_client : NotiBoostClient :=
  client_of {| opt_apiKey := Some "k"; opt_baseURL := None;
               opt_timeout := None; opt_retries := None |}.

(** The state a first call starts in. *)
Definition start (c : NotiBoostClient) (h : gmap loc object) : state :=
  {| this := c; heap := h; calls := 0; log := [] |}.

(** Networks: every connection refused; every call answered 500 with
    the JSON object whose [message] is the empty string; every call
    answered 204 without a body; every call answered 200 with the text
    [OK]; a first call answered 429 with an HTTP date as [retry-after],
    the following ones 200 with an empty JSON object. *)
Definition net_refused : nat -> raw_outcome :=
  fun _ => RawError "ECONNREFUSED".

Definition net_500 : nat -> raw_outcome :=
  fun _ => RawResponse 500 ∅ [text_empty_message].

Definition net_204 : nat -> raw_outcome :=
  fun _ => RawResponse 204 ∅ [].

(** Every call answered 500 with the JSON object whose [message] is 42,
    and with the one whose [message] is an object with a field
    [toString]; every call answered 200 with the three characters O, e
    with an acute accent, K in two chunks, the first of which ends
    between the two bytes of the accented letter. *)
Definition net_500_number : nat -> raw_outcome :=
  fun _ => RawResponse 500 ∅ [text_message_42].

Definition net_500_object : nat -> raw_outcome :=
  fun _ => RawResponse 500 ∅ [text_message_object].

Definition net_200_cut : nat -> raw_outcome :=
  fun _ => RawResponse 200 ∅
             [String "O" (String (ascii_of_nat 195) "");
              String (ascii_of_nat 169) (String "K" "")].

Definition net_200_OK : nat -> raw_outcome :=
  fun _ => RawResponse 200 ∅ ["O"; "K"].

Definition net_429_date : nat -> raw_outcome :=
  fun n =>
    match n with
    | O => RawResponse 429 {[ "retry-after" := "Wed, 21 Oct 2015 07:28:00 GMT" ]}
             ["slow down"]
    | S _ => RawResponse 200 ∅ ["{}"]
    end.

(** Event objects of a caller, at location 1 of its heap: the event of
    the specification's example, one whose [occurred_at] is [null], and
    one whose [occurred_at] is the empty string. *)
Definition event_plain : object :=
  [("event_name", JStr "x"); ("event_id", JStr "e1"); ("user_id", JStr "u1")].

Definition event_null : object :=
  [("event_name", JStr "x"); ("occurred_at", JNull)].

Definition event_blank : object :=
  [("occurred_at", JStr ""); ("event_name", JStr "x")].

Definition clock : string := "2025-12-01T10:00:00.000Z".

(** A payload, what [new URL] gives for the users path under the default
    base URL, and header overrides: one that names [Authorization] and
    [Content-Length], and the idempotency key of the README. *)
Definition payload_a_1 : jsvalue := JObj [("a", JNum (Int 1))].

Definition users_url : URL :=
  {| url_protocol := "https:"; url_hostname := "api.notiboost.com";
     url_port := ""; url_pathname := "/api/v1/users"; url_search := "" |}.

Definition override_both : object :=
  [("Authorization", JStr "Basic dXNlcg=="); ("Content-Length", JStr "0")].

(** The options [{ apiKey: 'k', timeout: 0, retries: 0 }], and what is
    sent for a request without payload to the users path. *)
Definition options_zero : Options :=
  {| opt_apiKey := Some "k"; opt_baseURL := None;
     opt_timeout := Some 0; opt_retries := Some 0 |}.

Definition users_get_options (c : NotiBoostClient) (method : string)
  : RequestOptions :=
  request_options c users_url method [] None.

Definition override_idempotency : object :=
  [("Idempotency-Key", JStr "unique-key-12345")].

(** * Properties *)

(** ** Objects *)

Lemma lookup_set_field_eq (k : string) (v : jsvalue) (o : object) :
  lookup_field k (set_field k v o) = Some v.
Proof.
  induction o as [|[k' v'] o IH]; simpl.
  - now rewrite String.eqb_refl.
  - destruct (String.eqb k' k) eqn:E; simpl; rewrite E; auto.
Qed.

Lemma lookup_set_field_ne (k k' : string) (v : jsvalue) (o : object) :
  k <> k' -> lookup_field k' (set_field k v o) = lookup_field k' o.
Proof.
  intros Hne. induction o as [|[k0 v0] o IH]; simpl.
  - destruct (String.eqb_spec k k'); [contradiction | reflexivity].
  - destruct (String.eqb_spec k0 k) as [->|Hk0]; simpl.
    + destruct (String.eqb_spec k k'); [contradiction | reflexivity].
    + now rewrite IH.
Qed.

(** Writing a property that the object lacks appends it. *)
Lemma set_field_fresh (k : string) (v : jsvalue) (o : object) :
  lookup_field k o = None -> set_field k v o = o ++ [(k, v)].
Proof.
  induction o as [|[k' v'] o IH]; simpl; [reflexivity|].
  destruct (String.eqb k' k); [discriminate|].
  intros H. now rewrite IH.
Qed.

Lemma lookup_spread (a b : object) (k : string) :
  lookup_field k (spread a b) =
  match lookup_field k (reverse b) with
  | Some v => Some v
  | None => lookup_field k a
  end.
Proof.
  unfold spread. revert a.
  induction b as [|[k' v'] b IH]; intros a; simpl; [reflexivity|].
  rewrite IH, reverse_cons. clear IH.
  induction (reverse b) as [|[k0 v0] l IHl]; simpl.
  - destruct (String.eqb_spec k' k) as [->|Hne].
    + apply lookup_set_field_eq.
    + now apply lookup_set_field_ne.
  - destruct (String.eqb k0 k); [reflexivity | apply IHl].
Qed.

(** With distinct property names, the first binding is the only one. *)
Lemma lookup_reverse_NoDup (b : object) (k : string) :
  NoDup (b.*1) -> lookup_field k (reverse b) = lookup_field k b.
Proof.
  induction b as [|[k' v'] b IH]; simpl; [reflexivity|].
  rewrite NoDup_cons. intros [Hnotin Hnd].
  rewrite reverse_cons.
  assert (Happ : forall l1 l2 : object,
             lookup_field k (l1 ++ l2) =
             match lookup_field k l1 with
             | Some v => Some v
             | None => lookup_field k l2
             end).
  { induction l1 as [|[k1 v1] l1 IH1]; intros l2; simpl; [reflexivity|].
    destruct (String.eqb k1 k); [reflexivity | apply IH1]. }
  rewrite Happ, (IH Hnd). simpl.
  destruct (String.eqb_spec k' k) as [->|Hne].
  - assert (Hnone : lookup_field k b = None).
    { clear -Hnotin. induction b as [|[k1 v1] b IHb]; simpl; [reflexivity|].
      destruct (String.eqb_spec k1 k) as [->|Hk].
      - exfalso. apply Hnotin. simpl. left.
      - apply IHb. intros Hin. apply Hnotin. simpl. now right. }
    now rewrite Hnone.
  - now destruct (lookup_field k b).
Qed.

(** ** One pass of the retry loop *)

Section Passes.

Context {platform : Platform}.
Variable net : nat -> raw_outcome.

Lemma attempt_once_response ro body attempt lastError st status hdrs chunks :
  net (calls st) = RawResponse status hdrs chunks ->
  attempt_once net ro body attempt lastError st =
  let st1 := after_call ro body st in
  let d := parse_body (received chunks) in
  if (200 <=? status) && (status <? 300) then (Normal (Return d), st1)
  else if (status =? 429) && (attempt <? retries (this st)) then
    (Normal (Continue lastError),
     logged (Sleep (number_mul (parseInt (retry_after_text hdrs)) (Int 1000))) st1)
  else if (attempt <? retries (this st))
          && negb (instanceof_NotiBoostError (Exn (api_error status d))) then
    (Normal (Continue (Exn (api_error status d))),
     logged (Sleep (Int (2 ^ attempt * 1000))) st1)
  else (Thrown (Exn (api_error status d)), st1).
Proof.
  intros Hnet.
  unfold attempt_once, try_catch, bind, _makeRequest, after_call. rewrite Hnet.
  cbv zeta. cbn [statusCode headers data].
  destruct ((200 <=? status) && (status <? 300)); [reflexivity|].
  unfold read, ret, throw, _sleep, emit. cbn [this called logged].
  destruct ((status =? 429) && (attempt <? retries (this st))); [reflexivity|].
  fold (api_error status (parse_body (received chunks))).
  cbn [this called logged].
  destruct ((attempt <? retries (this st))
            && negb (instanceof_NotiBoostError
                       (Exn (api_error status (parse_body (received chunks))))));
    reflexivity.
Qed.

(** The error thrown for a response is a [NotiBoostError] exactly when
    the message converts to a string. *)
Lemma api_error_converted status d :
  api_error status d =
  match ToString (js_or (optional_get d "message")
                    (JStr ("HTTP " +:+ pretty status))) with
  | Some text => NotiBoostError text status d
  | None => TypeError "Cannot convert object to primitive value"
  end.
Proof.
  unfold api_error, new_NotiBoostError, js_or.
  destruct (truthy (optional_get d "message")) eqn:Ht; [|reflexivity].
  destruct (optional_get d "message"); try reflexivity; discriminate.
Qed.

Lemma attempt_once_failure ro body attempt lastError st e :
  transport_error (net (calls st)) = Some e ->
  attempt_once net ro body attempt lastError st =
  let st1 := after_call ro body st in
  if attempt <? retries (this st) then
    (Normal (Continue (Exn e)), logged (Sleep (Int (2 ^ attempt * 1000))) st1)
  else (Thrown (Exn e), st1).
Proof.
  intros Hnet.
  unfold attempt_once, try_catch, bind, _makeRequest, after_call.
  destruct (net (calls st)) as [status hdrs chunks|message|]; simpl in Hnet;
    [discriminate| |]; injection Hnet as <-;
    unfold read, ret, throw, _sleep, emit; cbn [this called logged];
    cbn [instanceof_NotiBoostError negb]; rewrite andb_true_r;
    destruct (attempt <? retries (this st)); reflexivity.
Qed.

(** The three ways a pass can end. *)
Lemma attempt_once_cases ro body attempt lastError st r st' :
  attempt_once net ro body attempt lastError st = (r, st') ->
  let st1 := after_call ro body st in
  (exists v, r = Normal (Return v) /\ st' = st1)
  \/ (exists lastError' ms,
        r = Normal (Continue lastError') /\ st' = logged (Sleep ms) st1
        /\ attempt < retries (this st))
  \/ (exists t, r = Thrown t /\ st' = st1).
Proof.
  intros Hrun st1.
  destruct (net (calls st)) as [status hdrs chunks|message|] eqn:Hnet.
  - rewrite (attempt_once_response _ _ _ _ _ _ _ _ Hnet) in Hrun. cbv zeta in Hrun.
    destruct ((200 <=? status) && (status <? 300)).
    + injection Hrun as <- <-. left. eauto.
    + destruct ((status =? 429) && (attempt <? retries (this st))) eqn:Hc.
      * injection Hrun as <- <-. right. left.
        apply andb_true_iff in Hc as [_ Hlt]. apply Z.ltb_lt in Hlt. eauto 6.
      * match type of Hrun with (if ?c then _ else _) = _ => destruct c eqn:Hc' end.
        -- injection Hrun as <- <-. right. left.
           apply andb_true_iff in Hc' as [Hlt _]. apply Z.ltb_lt in Hlt. eauto 6.
        -- injection Hrun as <- <-. right. right. eauto.
  - rewrite (attempt_once_failure _ _ _ _ _ (Error message)) in Hrun
      by (rewrite Hnet; reflexivity).
    cbv zeta in Hrun.
    destruct (attempt <? retries (this st)) eqn:Hlt; injection Hrun as <- <-.
    + right. left. apply Z.ltb_lt in Hlt. eauto 6.
    + right. right. eauto.
  - rewrite (attempt_once_failure _ _ _ _ _ (Error "Request timeout")) in Hrun
      by (rewrite Hnet; reflexivity).
    cbv zeta in Hrun.
    destruct (attempt <? retries (this st)) eqn:Hlt; injection Hrun as <- <-.
    + right. left. apply Z.ltb_lt in Hlt. eauto 6.
    + right. right. eauto.
Qed.

(** The loop, one pass unfolded. *)
Lemma request_loop_step fuel ro body attempt lastError st :
  request_loop net (S fuel) ro body attempt lastError st =
  if attempt <=? retries (this st) then
    match attempt_once net ro body attempt lastError st with
    | (Normal (Return v), st') => (Normal v, st')
    | (Normal (Continue lastError'), st') =>
        request_loop net fuel ro body (attempt + 1) lastError' st'
    | (Thrown t, st') => (Thrown t, st')
    | (OutOfFuel, st') => (OutOfFuel, st')
    end
  else (Thrown lastError, st).
Proof.
  cbn [request_loop]. unfold bind at 1. unfold read at 1.
  destruct (attempt <=? retries (this st)); [|reflexivity].
  unfold bind at 1.
  destruct (attempt_once net ro body attempt lastError st) as [[[le'|v]|t|] st'];
    reflexivity.
Qed.

End Passes.

(** ** The whole loop *)

Section Loop.

Context {platform : Platform}.
Variable net : nat -> raw_outcome.

Lemma attempt_once_frame ro body attempt lastError st r st' :
  attempt_once net ro body attempt lastError st = (r, st') ->
  this st' = this st /\ heap st' = heap st /\ calls st' = S (calls st)
  /\ (exists l, log st' = log st ++ l /\ Forall (effect_of ro body) l)
  /\ r <> OutOfFuel.
Proof.
  intros Hrun. apply attempt_once_cases in Hrun. cbv zeta in Hrun.
  destruct Hrun as [(v & -> & ->)|[(le' & ms & -> & -> & _)|(t & -> & ->)]];
    (repeat split; [| discriminate]).
  - exists [HttpRequest ro (written_body body)]. split; [reflexivity|].
    repeat constructor.
  - exists [HttpRequest ro (written_body body); Sleep ms]. split.
    + cbn [log logged called after_call]. now rewrite <- app_assoc.
    + repeat constructor.
  - exists [HttpRequest ro (written_body body)]. split; [reflexivity|].
    repeat constructor.
Qed.

(** The loop never writes to the client or to the caller's heap, makes at
    most [retries + 1 - attempt] calls, and only adds effects of this
    dispatch to the log. *)
Lemma request_loop_frame fuel ro body :
  forall attempt lastError st r st',
  request_loop net fuel ro body attempt lastError st = (r, st') ->
  this st' = this st /\ heap st' = heap st
  /\ (calls st <= calls st' <= calls st + Z.to_nat (retries (this st) + 1 - attempt))%nat
  /\ (exists l, log st' = log st ++ l /\ Forall (effect_of ro body) l).
Proof.
  induction fuel as [|fuel IH]; intros attempt lastError st r st' Hrun.
  - injection Hrun as <- <-. repeat split; try lia.
    exists []. split; [now rewrite app_nil_r | constructor].
  - rewrite request_loop_step in Hrun.
    destruct (attempt <=? retries (this st)) eqn:Hle.
    2:{ injection Hrun as <- <-. repeat split; try lia.
        exists []. split; [now rewrite app_nil_r | constructor]. }
    apply Z.leb_le in Hle.
    destruct (attempt_once net ro body attempt lastError st) as [r1 st1] eqn:Hpass.
    destruct (attempt_once_frame _ _ _ _ _ _ _ Hpass)
      as (Hthis & Hheap & Hcalls & (l1 & Hlog & Hall) & _).
    destruct r1 as [[le'|v]|t|].
    + apply IH in Hrun. destruct Hrun as (Hthis' & Hheap' & Hcalls' & (l2 & Hlog' & Hall')).
      rewrite Hthis in *. rewrite Hcalls in Hcalls'.
      repeat split; try congruence; try lia.
      exists (l1 ++ l2). split.
      * rewrite Hlog', Hlog. now rewrite <- app_assoc.
      * now apply Forall_app.
    + injection Hrun as <- <-. repeat split; try assumption; try lia. eauto.
    + injection Hrun as <- <-. repeat split; try assumption; try lia. eauto.
    + injection Hrun as <- <-. repeat split; try assumption; try lia. eauto.
Qed.

(** With more fuel than passes left, the loop ends by a return or a throw. *)
Lemma request_loop_total fuel ro body :
  forall attempt lastError st,
  (Z.to_nat (retries (this st) + 1 - attempt) < fuel)%nat ->
  fst (request_loop net fuel ro body attempt lastError st) <> OutOfFuel.
Proof.
  induction fuel as [|fuel IH]; intros attempt lastError st Hfuel; [lia|].
  rewrite request_loop_step.
  destruct (attempt <=? retries (this st)) eqn:Hle; [|discriminate].
  apply Z.leb_le in Hle.
  destruct (attempt_once net ro body attempt lastError st) as [r1 st1] eqn:Hpass.
  destruct (attempt_once_frame _ _ _ _ _ _ _ Hpass)
    as (Hthis & _ & _ & _ & Hfuel1).
  destruct r1 as [[le'|v]|t|]; try discriminate; [|congruence].
  apply IH. rewrite Hthis. lia.
Qed.

End Loop.

(** ** Runs of [request] *)

Section Runs.

Context {platform : Platform}.
Variable net : nat -> raw_outcome.

Lemma count_requests_app (l1 l2 : list effect) :
  count_requests (l1 ++ l2) = (count_requests l1 + count_requests l2)%nat.
Proof.
  induction l1 as [|[o w|ms] l1 IH]; simpl; [reflexivity| |]; now rewrite IH.
Qed.

(** Every call the loop makes is the call of one of its passes: the [j]-th
    call after entry is made by the pass with index [attempt + j], and the
    rest of the run is the run of the loop from that pass on. *)
Lemma request_loop_reaches fuel ro body :
  forall attempt lastError st r st' (j : nat),
  request_loop net fuel ro body attempt lastError st = (r, st') ->
  (calls st + j < calls st')%nat ->
  exists fuel' lastError' stj l,
    request_loop net (S fuel') ro body (attempt + Z.of_nat j) lastError' stj = (r, st')
    /\ attempt + Z.of_nat j <= retries (this st)
    /\ this stj = this st
    /\ calls stj = (calls st + j)%nat
    /\ log stj = log st ++ l
    /\ count_requests l = j.
Proof.
  induction fuel as [|fuel IH]; intros attempt lastError st r st' j Hrun Hj.
  - injection Hrun as <- <-. lia.
  - pose proof Hrun as Hrun0.
    rewrite request_loop_step in Hrun.
    destruct (attempt <=? retries (this st)) eqn:Hle.
    2:{ injection Hrun as <- <-. lia. }
    apply Z.leb_le in Hle.
    destruct j as [|j].
    { exists fuel, lastError, st, [].
      rewrite Z.add_0_r, Nat.add_0_r, app_nil_r. repeat split; auto. }
    destruct (attempt_once net ro body attempt lastError st) as [r1 st1] eqn:Hpass.
    pose proof (attempt_once_frame _ _ _ _ _ _ _ _ Hpass)
      as (Hthis & _ & Hcalls & _ & _).
    apply attempt_once_cases in Hpass. cbv zeta in Hpass.
    destruct Hpass as [(v & -> & ->)|[(le' & ms & -> & -> & _)|(t & -> & ->)]].
    + injection Hrun as <- <-. cbn [calls called logged after_call] in Hj. lia.
    + apply (IH _ _ _ _ _ j) in Hrun; [|rewrite Hcalls; lia].
      destruct Hrun as (fuel' & le2 & stj & l & Hrun & Hidx & Hthisj & Hcallsj & Hlog & Hcount).
      exists fuel', le2, stj, ([HttpRequest ro (written_body body); Sleep ms] ++ l).
      rewrite Hthis in *. rewrite Hcalls in Hcallsj.
      replace (attempt + Z.of_nat (S j)) with (attempt + 1 + Z.of_nat j) by lia.
      repeat split; auto; try lia.
      * rewrite Hlog. cbn [log logged called after_call].
        now rewrite <- !app_assoc.
      * rewrite count_requests_app, Hcount. reflexivity.
    + injection Hrun as <- <-. cbn [calls called logged after_call] in Hj. lia.
Qed.

Lemma request_run method path data overrides st url :
  URL_parse (baseURL (this st) +:+ path) = Some url ->
  request net method path data overrides st =
  request_loop net (S (Z.to_nat (retries (this st) + 1)))
    (request_options (this st) url method overrides (request_body method data))
    (request_body method data) 0 ExnUndefined st.
Proof.
  intros Hurl. unfold request, bind, read. rewrite Hurl. reflexivity.
Qed.

Lemma request_invalid_url method path data overrides st :
  URL_parse (baseURL (this st) +:+ path) = None ->
  request net method path data overrides st =
  (Thrown (Exn (TypeError "Invalid URL")), st).
Proof.
  intros Hurl. unfold request, bind, read. rewrite Hurl. reflexivity.
Qed.

(** [request] always ends, by a return or a throw. *)
Lemma request_total method path data overrides st :
  fst (request net method path data overrides st) <> OutOfFuel.
Proof.
  destruct (URL_parse (baseURL (this st) +:+ path)) as [url|] eqn:Hurl.
  - rewrite (request_run _ _ _ _ _ _ Hurl). apply request_loop_total. lia.
  - rewrite (request_invalid_url _ _ _ _ _ Hurl). discriminate.
Qed.

(** The frame of [request]: the client and the caller's heap are as
    before, at most [retries + 1] calls are made, and every call carries
    the request options built from the arguments. *)
Lemma request_frame method path data overrides st r st' :
  request net method path data overrides st = (r, st') ->
  this st' = this st /\ heap st' = heap st
  /\ (calls st <= calls st' <= calls st + Z.to_nat (retries (this st) + 1))%nat
  /\ exists l, log st' = log st ++ l
       /\ forall o w, In (HttpRequest o w) l ->
            ro_method o = method
            /\ ro_headers o =
               request_headers (apiKey (this st)) overrides (request_body method data)
            /\ w = written_body (request_body method data).
Proof.
  intros Hrun.
  destruct (URL_parse (baseURL (this st) +:+ path)) as [url|] eqn:Hurl.
  - rewrite (request_run _ _ _ _ _ _ Hurl) in Hrun.
    apply request_loop_frame in Hrun.
    destruct Hrun as (Hthis & Hheap & Hcalls & (l & Hlog & Hall)).
    rewrite Z.sub_0_r in Hcalls. repeat split; auto; try lia.
    exists l. split; [assumption|]. intros o w Hin.
    rewrite Forall_forall in Hall. specialize (Hall _ (proj2 (list_elem_of_In _ _) Hin)).
    destruct Hall as [-> ->]. repeat split; reflexivity.
  - rewrite (request_invalid_url _ _ _ _ _ Hurl) in Hrun. injection Hrun as <- <-.
    repeat split; auto; try lia.
    exists []. split; [now rewrite app_nil_r|]. intros o w [].
Qed.

End Runs.

(** ** The claims about the dispatcher *)

Section DispatcherClaims.

Context {platform : Platform}.
Variable net : nat -> raw_outcome.

(** A pass that is entered starts with its HTTP call. *)
Lemma request_loop_first_call fuel ro body attempt lastError st r st' :
  attempt <= retries (this st) ->
  request_loop net (S fuel) ro body attempt lastError st = (r, st') ->
  exists l, log st' = log st ++ HttpRequest ro (written_body body) :: l.
Proof.
  intros Hle Hrun. rewrite request_loop_step in Hrun.
  apply Z.leb_le in Hle. rewrite Hle in Hrun.
  destruct (attempt_once net ro body attempt lastError st) as [r1 st1] eqn:Hpass.
  apply attempt_once_cases in Hpass. cbv zeta in Hpass.
  destruct Hpass as [(v & -> & ->)|[(le' & ms & -> & -> & _)|(t & -> & ->)]].
  - injection Hrun as <- <-. exists []. reflexivity.
  - apply request_loop_frame in Hrun. destruct Hrun as (_ & _ & _ & (l & -> & _)).
    exists (Sleep ms :: l). cbn [log logged called after_call].
    now rewrite <- !app_assoc.
  - injection Hrun as <- <-. exists []. reflexivity.
Qed.

(** A pass that ends in [continue] after a sleep is followed by the call
    of the next pass. *)
Lemma sleep_then_retry fuel ro body attempt lastError st ms r st' :
  attempt < retries (this st) ->
  r <> OutOfFuel ->
  request_loop net fuel ro body (attempt + 1) lastError
    (logged (Sleep ms) (after_call ro body st)) = (r, st') ->
  exists l,
    log st' =
    log st ++ HttpRequest ro (written_body body) :: Sleep ms
              :: HttpRequest ro (written_body body) :: l.
Proof.
  intros Hlt Hfuel Hrun.
  destruct fuel as [|fuel]; [injection Hrun as <- _; congruence|].
  apply request_loop_first_call in Hrun; [|cbn [this logged called after_call]; lia].
  destruct Hrun as (l & ->). exists l.
  cbn [log logged called after_call]. now rewrite <- !app_assoc.
Qed.

(** The [j]-th call of a dispatch is made by pass [j] of its loop. *)
Lemma request_reaches method path data overrides st r st' (j : nat) :
  request net method path data overrides st = (r, st') ->
  (calls st + j < calls st')%nat ->
  exists url fuel lastError stj l,
    let body := request_body method data in
    let ro := request_options (this st) url method overrides body in
    request_loop net (S fuel) ro body (Z.of_nat j) lastError stj = (r, st')
    /\ Z.of_nat j <= retries (this st)
    /\ this stj = this st
    /\ calls stj = (calls st + j)%nat
    /\ log stj = log st ++ l
    /\ count_requests l = j.
Proof.
  intros Hrun Hj.
  destruct (URL_parse (baseURL (this st) +:+ path)) as [url|] eqn:Hurl.
  - rewrite (request_run _ _ _ _ _ _ _ Hurl) in Hrun.
    destruct (request_loop_reaches _ _ _ _ _ _ _ _ _ j Hrun Hj)
      as (fuel & le & stj & l & H).
    exists url, fuel, le, stj, l. exact H.
  - rewrite (request_invalid_url _ _ _ _ _ _ Hurl) in Hrun.
    injection Hrun as <- <-. lia.
Qed.

(** Going from a call of a run to the pass of the loop that makes it:
    [Hpass] is the run of the loop from that pass on, unfolded by one
    pass, in the state [stj] the pass starts in. *)
Ltac enter_pass Hrun Hj Hnet :=
  let url := fresh "url" in
  let fuel := fresh "fuel" in
  let le := fresh "le" in
  let Hidx := fresh "Hidx" in
  destruct (request_reaches _ _ _ _ _ _ _ _ Hrun Hj)
    as (url & fuel & le & stj & l & Hpass & Hidx & Hthis & Hcalls & Hlog & Hcount);
  cbv zeta in Hpass; rewrite request_loop_step in Hpass;
  rewrite <- Hthis in Hidx; apply Z.leb_le in Hidx; rewrite Hidx in Hpass;
  rewrite <- Hcalls in Hnet.

(** X3. One dispatch makes at most [1 + this.retries] HTTP calls (none
    when [this.retries] is negative), whatever the network answers. *)
Theorem request_attempts_bounded method path data overrides st :
  (calls (snd (request net method path data overrides st))
   <= calls st + Z.to_nat (1 + retries (this st)))%nat.
Proof.
  destruct (request net method path data overrides st) as [r st'] eqn:Hrun.
  apply request_frame in Hrun. destruct Hrun as (_ & _ & Hcalls & _).
  cbn [snd]. replace (1 + retries (this st)) with (retries (this st) + 1) by lia. lia.
Qed.

(** C9. A call of [request] leaves the configuration of the client as it
    was: whatever the method, path, payload, header overrides, network
    outcomes and result, the credential, the base URL, the timeout and
    the retry count read the same after the call as before it. *)
Theorem request_preserves_configuration method path data overrides st :
  let st' := snd (request net method path data overrides st) in
  apiKey (this st') = apiKey (this st)
  /\ baseURL (this st') = baseURL (this st)
  /\ timeout (this st') = timeout (this st)
  /\ retries (this st') = retries (this st).
Proof.
  destruct (request net method path data overrides st) as [r st'] eqn:Hrun.
  apply request_frame in Hrun. destruct Hrun as (Hthis & _).
  cbn [snd]. rewrite Hthis. repeat split.
Qed.

(** C3. In every run of [request], every HTTP call that fails at
    transport level (an ['error'] or a ['timeout'] event) is handled by
    its position [j] among the calls of the run, counted from 0: while
    [j] is below the retry count, the run sleeps [2^j * 1000]
    milliseconds right after that call and then makes the next call; at
    the retry count, the run ends by throwing the very error the
    transport reported, and makes no further call. *)
Theorem transport_failure_backoff method path data overrides st r st' (j : nat) e :
  request net method path data overrides st = (r, st') ->
  (calls st + j < calls st')%nat ->
  transport_error (net (calls st + j)%nat) = Some e ->
  (Z.of_nat j < retries (this st) ->
   exists ro w l1 l2,
     log st' = log st ++ l1 ++ HttpRequest ro w
                 :: Sleep (Int (2 ^ Z.of_nat j * 1000)) :: HttpRequest ro w :: l2
     /\ count_requests l1 = j)
  /\ (retries (this st) <= Z.of_nat j ->
      r = Thrown (Exn e) /\ calls st' = S (calls st + j)).
Proof.
  intros Hrun Hj Hnet.
  pose proof (request_total net method path data overrides st) as Htotal.
  rewrite Hrun in Htotal. cbn [fst] in Htotal.
  enter_pass Hrun Hj Hnet.
  rewrite (attempt_once_failure _ _ _ _ _ _ _ Hnet) in Hpass. cbv zeta in Hpass.
  rewrite Hthis in Hpass. split.
  - intros Hlt. apply Z.ltb_lt in Hlt. rewrite Hlt in Hpass.
    apply sleep_then_retry in Hpass; [|rewrite Hthis; now apply Z.ltb_lt|assumption].
    destruct Hpass as (l2 & Hlog'). rewrite Hlog in Hlog'.
    eexists _, _, l, l2. rewrite <- app_assoc in Hlog'. split; [exact Hlog'|exact Hcount].
  - intros Hge. apply Z.ltb_ge in Hge. rewrite Hge in Hpass.
    injection Hpass as <- <-. split; [reflexivity|].
    cbn [calls called logged after_call]. now rewrite Hcalls.
Qed.

(** X8. A 429 response is retried after the delay the server names
    while the retry count is not reached; once it is, the run throws
    what [new NotiBoostError] gives for the status 429 and the parsed
    body, as for any other API error. *)
Lemma rate_limit_retry method path data overrides st r st' (j : nat) hdrs chunks :
  request net method path data overrides st = (r, st') ->
  (calls st + j < calls st')%nat ->
  net (calls st + j)%nat = RawResponse 429 hdrs chunks ->
  (Z.of_nat j < retries (this st) ->
   exists ro w l1 l2,
     log st' = log st ++ l1 ++ HttpRequest ro w
                 :: Sleep (number_mul (parseInt (retry_after_text hdrs)) (Int 1000))
                 :: HttpRequest ro w :: l2
     /\ count_requests l1 = j)
  /\ (retries (this st) <= Z.of_nat j ->
      r = Thrown (Exn (api_error 429 (parse_body (received chunks))))
      /\ calls st' = S (calls st + j)).
Proof.
  intros Hrun Hj Hnet.
  pose proof (request_total net method path data overrides st) as Htotal.
  rewrite Hrun in Htotal. cbn [fst] in Htotal.
  enter_pass Hrun Hj Hnet.
  rewrite (attempt_once_response _ _ _ _ _ _ _ _ _ Hnet) in Hpass. cbv zeta in Hpass.
  change ((200 <=? 429) && (429 <? 300)) with false in Hpass.
  change (429 =? 429) with true in Hpass. cbn [andb] in Hpass.
  rewrite Hthis in Hpass. split.
  - intros Hlt. apply Z.ltb_lt in Hlt. rewrite Hlt in Hpass.
    apply sleep_then_retry in Hpass; [|rewrite Hthis; now apply Z.ltb_lt|assumption].
    destruct Hpass as (l2 & Hlog'). rewrite Hlog in Hlog'.
    eexists _, _, l, l2. rewrite <- app_assoc in Hlog'. split; [exact Hlog'|exact Hcount].
  - intros Hge. apply Z.ltb_ge in Hge. rewrite Hge in Hpass. cbn [andb] in Hpass.
    injection Hpass as <- <-. split; [reflexivity|].
    cbn [calls called logged after_call]. now rewrite Hcalls.
Qed.

(** X21. A response whose status is neither 2xx nor 429 and whose
    [message] does not convert to a string makes the constructor of the
    error throw a [TypeError] inside the [try]: the [catch] takes it for
    a transport failure, backs off and calls again while the retry count
    is not reached, and throws it once it is. *)
Theorem unconvertible_message_is_retried method path data overrides st r st'
    (j : nat) status hdrs chunks :
  request net method path data overrides st = (r, st') ->
  (calls st + j < calls st')%nat ->
  net (calls st + j)%nat = RawResponse status hdrs chunks ->
  status < 200 \/ 300 <= status ->
  status <> 429 ->
  ToString (js_or (optional_get (parse_body (received chunks)) "message")
              (JStr ("HTTP " +:+ pretty status))) = None ->
  (Z.of_nat j < retries (this st) ->
   exists ro w l1 l2,
     log st' = log st ++ l1 ++ HttpRequest ro w
                 :: Sleep (Int (2 ^ Z.of_nat j * 1000)) :: HttpRequest ro w :: l2
     /\ count_requests l1 = j)
  /\ (retries (this st) <= Z.of_nat j ->
      r = Thrown (Exn (TypeError "Cannot convert object to primitive value"))
      /\ calls st' = S (calls st + j)).
Proof.
  intros Hrun Hj Hnet Hnot2xx Hnot429 Hconv.
  pose proof (request_total net method path data overrides st) as Htotal.
  rewrite Hrun in Htotal. cbn [fst] in Htotal.
  enter_pass Hrun Hj Hnet.
  rewrite (attempt_once_response _ _ _ _ _ _ _ _ _ Hnet) in Hpass. cbv zeta in Hpass.
  replace ((200 <=? status) && (status <? 300)) with false in Hpass by lia.
  replace (status =? 429) with false in Hpass by lia. cbn [andb] in Hpass.
  rewrite api_error_converted, Hconv in Hpass.
  cbn [instanceof_NotiBoostError negb] in Hpass. rewrite andb_true_r, Hthis in Hpass.
  split.
  - intros Hlt. apply Z.ltb_lt in Hlt. rewrite Hlt in Hpass.
    apply sleep_then_retry in Hpass; [|rewrite Hthis; now apply Z.ltb_lt|assumption].
    destruct Hpass as (l2 & Hlog'). rewrite Hlog in Hlog'.
    eexists _, _, l, l2. rewrite <- app_assoc in Hlog'. split; [exact Hlog'|exact Hcount].
  - intros Hge. apply Z.ltb_ge in Hge. rewrite Hge in Hpass.
    injection Hpass as <- <-. split; [reflexivity|].
    cbn [calls called logged after_call]. now rewrite Hcalls.
Qed.

(** Without a [retry-after] header, or with an empty one, the delay is
    one second. *)
Lemma retry_after_absent (hdrs : gmap string string) :
  hdrs !! "retry-after" = None \/ hdrs !! "retry-after" = Some "" ->
  number_mul (parseInt (retry_after_text hdrs)) (Int 1000) = Int 1000.
Proof.
  unfold retry_after_text. intros [-> | ->]; reflexivity.
Qed.

(** C4 (amended). In every run of [request], a response whose status is
    neither 2xx nor 429, and whose message converts to a string, ends the
    run at that call: the run throws a [NotiBoostError] with the status
    of the response, the parsed body as its response, and as message the
    string that the [message] field of the parsed body converts to when
    that field is truthy (the field itself when it is a string), and the
    text [HTTP <status>] otherwise (no such field, or a falsy one such as
    the empty string); no further call is made. *)
Theorem api_error_not_retried method path data overrides st r st' (j : nat)
    status hdrs chunks text :
  request net method path data overrides st = (r, st') ->
  (calls st + j < calls st')%nat ->
  net (calls st + j)%nat = RawResponse status hdrs chunks ->
  status < 200 \/ 300 <= status ->
  status <> 429 ->
  let d := parse_body (received chunks) in
  let field := optional_get d "message" in
  ToString (if truthy field then field else JStr ("HTTP " +:+ pretty status))
  = Some text ->
  r = Thrown (Exn (NotiBoostError text status d))
  /\ calls st' = S (calls st + j)
  /\ (truthy field = false -> text = "HTTP " +:+ pretty status)
  /\ (forall s, field = JStr s -> s <> "" -> text = s).
Proof.
  intros Hrun Hj Hnet Hnot2xx Hnot429 d field Hconv.
  enter_pass Hrun Hj Hnet.
  rewrite (attempt_once_response _ _ _ _ _ _ _ _ _ Hnet) in Hpass. cbv zeta in Hpass.
  replace ((200 <=? status) && (status <? 300)) with false in Hpass by lia.
  replace (status =? 429) with false in Hpass by lia. cbn [andb] in Hpass.
  rewrite api_error_converted in Hpass. unfold js_or in Hpass.
  fold d in Hpass. fold field in Hpass. rewrite Hconv in Hpass.
  cbn [instanceof_NotiBoostError negb] in Hpass. rewrite andb_false_r in Hpass.
  injection Hpass as <- <-. split; [reflexivity|].
  split; [cbn [calls called logged after_call]; now rewrite Hcalls|].
  split.
  - intros Hfalsy. rewrite Hfalsy in Hconv. cbn in Hconv. congruence.
  - intros s0 Hfield Hne. rewrite Hfield in Hconv. cbn [truthy] in Hconv.
    apply String.eqb_neq in Hne. rewrite Hne in Hconv. cbn in Hconv. congruence.
Qed.

(** What arrives in chunks that are each well formed is the chunks put
    together. *)
Lemma received_well_formed (chunks : list string) :
  Forall (fun chunk => Buffer_toString chunk = chunk) chunks ->
  received chunks = fold_left String.append chunks "".
Proof.
  unfold received. generalize "". induction chunks as [|chunk chunks IH];
    intros acc Hall; [reflexivity|].
  inversion Hall as [|? ? Hchunk Hrest]; subst. cbn [fold_left].
  rewrite Hchunk. now apply IH.
Qed.

(** C5 (amended). In every run of [request], a 2xx response whose body
    arrives in chunks that are each well-formed UTF-8 (no character is
    cut by the end of a chunk, so every chunk decodes to itself) ends the
    run at that call with a normal return: of the empty object when the
    body is empty, of the value [JSON.parse] gives when the body is not
    empty and parses, and of the object whose single field [message]
    holds the body text when the body is not empty and does not parse. *)
Theorem success_returns_parsed_body method path data overrides st r st' (j : nat)
    status hdrs chunks :
  request net method path data overrides st = (r, st') ->
  (calls st + j < calls st')%nat ->
  net (calls st + j)%nat = RawResponse status hdrs chunks ->
  200 <= status < 300 ->
  Forall (fun chunk => Buffer_toString chunk = chunk) chunks ->
  let body := fold_left String.append chunks "" in
  calls st' = S (calls st + j)
  /\ (body = "" -> r = Normal (JObj []))
  /\ (body <> "" -> forall v, JSON_parse body = Some v -> r = Normal v)
  /\ (body <> "" -> JSON_parse body = None ->
      r = Normal (JObj [("message", JStr body)])).
Proof.
  intros Hrun Hj Hnet H2xx Hchunks body.
  enter_pass Hrun Hj Hnet.
  rewrite (attempt_once_response _ _ _ _ _ _ _ _ _ Hnet) in Hpass. cbv zeta in Hpass.
  replace ((200 <=? status) && (status <? 300)) with true in Hpass by lia.
  rewrite (received_well_formed _ Hchunks) in Hpass.
  injection Hpass as <- <-. fold body. unfold parse_body.
  split; [cbn [calls called logged after_call]; now rewrite Hcalls|].
  split; [intros ->; reflexivity|].
  split; intros Hne.
  - intros v Hv. apply String.eqb_neq in Hne. now rewrite Hne, Hv.
  - intros Hv. apply String.eqb_neq in Hne. now rewrite Hne, Hv.
Qed.

(** Once the URL of a dispatch parses and the retry count is not
    negative, a first call is made. *)
Lemma request_first_attempt method path data overrides st :
  is_Some (URL_parse (baseURL (this st) +:+ path)) ->
  0 <= retries (this st) ->
  (calls st < calls (snd (request net method path data overrides st)))%nat.
Proof.
  intros [url Hurl] Hge. rewrite (request_run _ _ _ _ _ _ _ Hurl).
  rewrite request_loop_step. replace (0 <=? retries (this st)) with true by lia.
  destruct (attempt_once net _ _ 0 ExnUndefined st) as [r1 st1] eqn:Hpass.
  destruct (attempt_once_frame _ _ _ _ _ _ _ _ Hpass) as (_ & _ & Hcalls & _ & Hfuel).
  destruct r1 as [[le'|v]|t|]; cbn [snd]; try lia.
  destruct (request_loop net _ _ _ (0 + 1) le' st1) as [r st'] eqn:Hrest.
  apply request_loop_frame in Hrest. cbn [snd]. lia.
Qed.

Lemma sleeps_app (l1 l2 : list effect) : sleeps (l1 ++ l2) = sleeps l1 ++ sleeps l2.
Proof.
  induction l1 as [|[o w|ms] l1 IH]; simpl; [reflexivity|assumption|].
  now rewrite IH.
Qed.

Lemma request_loop_all_failures fuel ro body :
  (forall n, transport_error (net n) <> None) ->
  forall attempt lastError st r st',
  attempt <= retries (this st) + 1 ->
  (Z.to_nat (retries (this st) + 1 - attempt) < fuel)%nat ->
  request_loop net fuel ro body attempt lastError st = (r, st') ->
  sleeps (log st') =
    sleeps (log st) ++ backoff (Z.to_nat (retries (this st) - attempt)) attempt
  /\ calls st' = (calls st + Z.to_nat (retries (this st) + 1 - attempt))%nat.
Proof.
  intros Hfail.
  induction fuel as [|fuel IH]; intros attempt lastError st r st' Hle Hfuel Hrun; [lia|].
  rewrite request_loop_step in Hrun.
  destruct (Z.leb_spec attempt (retries (this st))) as [Hin|Hout].
  - destruct (transport_error (net (calls st))) as [e|] eqn:Hnet;
      [|now apply Hfail in Hnet].
    rewrite (attempt_once_failure _ _ _ _ _ _ _ Hnet) in Hrun. cbv zeta in Hrun.
    destruct (Z.ltb_spec attempt (retries (this st))) as [Hlt|Hge].
    + apply IH in Hrun; cbn [this logged called after_call]; try lia.
      cbn [this log calls logged called after_call] in Hrun.
      destruct Hrun as [Hsleeps Hcalls]. split; [|lia].
      rewrite Hsleeps, !sleeps_app. cbn [sleeps]. rewrite app_nil_r, <- app_assoc.
      replace (Z.to_nat (retries (this st) - attempt))
        with (S (Z.to_nat (retries (this st) - (attempt + 1)))) by lia.
      reflexivity.
    + injection Hrun as <- <-. cbn [log calls logged called after_call].
      replace (retries (this st) - attempt) with 0 by lia.
      replace (retries (this st) + 1 - attempt) with 1 by lia.
      rewrite sleeps_app. cbn. rewrite !app_nil_r. split; [reflexivity|lia].
  - injection Hrun as <- <-.
    replace (Z.to_nat (retries (this st) - attempt)) with O by lia.
    replace (Z.to_nat (retries (this st) + 1 - attempt)) with O by lia.
    cbn. rewrite app_nil_r. split; [reflexivity|lia].
Qed.

(** X10. When every call fails at transport level, a dispatch makes
    [1 + this.retries] calls and sleeps 1, 2, 4, ... seconds between
    them. *)
Theorem failing_network_delays method path data overrides st :
  (forall n, transport_error (net n) <> None) ->
  is_Some (URL_parse (baseURL (this st) +:+ path)) ->
  0 <= retries (this st) ->
  let st' := snd (request net method path data overrides st) in
  sleeps (log st') = sleeps (log st) ++ backoff (Z.to_nat (retries (this st))) 0
  /\ calls st' = (calls st + Z.to_nat (retries (this st) + 1))%nat.
Proof.
  intros Hfail [url Hurl] Hge st'. subst st'.
  rewrite (request_run _ _ _ _ _ _ _ Hurl).
  destruct (request_loop net _ _ _ 0 ExnUndefined st) as [r st'] eqn:Hrun.
  apply request_loop_all_failures in Hrun; try assumption; try lia.
  cbn [snd]. now rewrite !Z.sub_0_r in Hrun.
Qed.

(** Every call [templates.list] makes is a GET without a body. *)
Lemma templates_list_sends_get (options : list (string * string)) st r st' l o w :
  TemplatesClient_list net options st = (r, st') ->
  log st' = log st ++ l ->
  In (HttpRequest o w) l ->
  ro_method o = "GET" /\ w = None.
Proof.
  unfold TemplatesClient_list. cbv zeta. intros Hrun Hlog Hin.
  apply request_frame in Hrun. destruct Hrun as (_ & _ & _ & (l' & Hlog' & Hsent)).
  rewrite Hlog in Hlog'. apply app_inv_head in Hlog'. subst l'.
  destruct (Hsent _ _ Hin) as (Hm & _ & Hw). split; assumption.
Qed.

End DispatcherClaims.

(** ** The headers of a dispatch *)

Section HeaderClaims.

Context {platform : Platform}.
Variable net : nat -> raw_outcome.

Lemma lookup_request_headers key overrides body k :
  NoDup (overrides.*1) ->
  lookup_field k (request_headers key overrides body) =
  match body with
  | Some b =>
      if String.eqb "Content-Length" k
      then Some (JNum (Int (Z.of_nat (String.length b))))
      else match lookup_field k overrides with
           | Some v => Some v
           | None => lookup_field k (default_headers key)
           end
  | None =>
      match lookup_field k overrides with
      | Some v => Some v
      | None => lookup_field k (default_headers key)
      end
  end.
Proof.
  intros Hnd. unfold request_headers. destruct body as [b|].
  - destruct (String.eqb_spec "Content-Length" k) as [<-|Hne].
    + apply lookup_set_field_eq.
    + rewrite lookup_set_field_ne by assumption.
      now rewrite lookup_spread, lookup_reverse_NoDup.
  - now rewrite lookup_spread, lookup_reverse_NoDup.
Qed.

(** C6 (amended). Every HTTP call of a dispatch carries these headers:
    [Authorization] is [Bearer <credential>] and [Content-Type] is
    [application/json] unless the caller's overrides name that header;
    every header the caller's overrides name has the caller's value,
    except [Content-Length] when a body is sent; and when a body is sent
    (a truthy payload with POST or PUT), [Content-Length] is the byte
    length of the serialised payload, whatever the caller supplied. *)
Theorem request_headers_sent method path data overrides st r st' l o w :
  request net method path data overrides st = (r, st') ->
  log st' = log st ++ l ->
  In (HttpRequest o w) l ->
  NoDup (overrides.*1) ->
  (lookup_field "Authorization" overrides = None ->
   lookup_field "Authorization" (ro_headers o)
   = Some (JStr ("Bearer " +:+ apiKey (this st))))
  /\ (lookup_field "Content-Type" overrides = None ->
      lookup_field "Content-Type" (ro_headers o) = Some (JStr "application/json"))
  /\ (forall k v,
        lookup_field k overrides = Some v ->
        k <> "Content-Length" \/ request_body method data = None ->
        lookup_field k (ro_headers o) = Some v)
  /\ (forall b,
        request_body method data = Some b ->
        lookup_field "Content-Length" (ro_headers o)
        = Some (JNum (Int (Z.of_nat (String.length b))))).
Proof.
  intros Hrun Hlog Hin Hnd.
  apply request_frame in Hrun. destruct Hrun as (_ & _ & _ & (l' & Hlog' & Hsent)).
  rewrite Hlog in Hlog'. apply app_inv_head in Hlog'. subst l'.
  destruct (Hsent _ _ Hin) as (_ & Hheaders & _). rewrite Hheaders.
  repeat split.
  - intros Hnone. rewrite lookup_request_headers by assumption.
    rewrite Hnone. now destruct (request_body method data).
  - intros Hnone. rewrite lookup_request_headers by assumption.
    rewrite Hnone. now destruct (request_body method data).
  - intros k v Hk Hside. rewrite lookup_request_headers by assumption.
    rewrite Hk. destruct (request_body method data) as [b|]; [|reflexivity].
    destruct Hside as [Hne|]; [|discriminate].
    destruct (String.eqb_spec "Content-Length" k); [congruence | reflexivity].
  - intros b Hb. rewrite lookup_request_headers by assumption.
    rewrite Hb. reflexivity.
Qed.

End HeaderClaims.

(** ** The query string *)

Lemma count_char_app (c : ascii) (s1 s2 : string) :
  count_char c (s1 +:+ s2) = (count_char c s1 + count_char c s2)%nat.
Proof.
  induction s1 as [|x s1 IH]; [reflexivity|].
  change (String x s1 +:+ s2) with (String x (s1 +:+ s2)).
  cbn [count_char]. rewrite IH. lia.
Qed.

(** The delimiters of a URL query do not survive the encoding. *)
Lemma urlencode_byte_no_delimiter (c : ascii) :
  count_char "?" (urlencode_byte c) = O
  /\ count_char "&" (urlencode_byte c) = O
  /\ count_char "=" (urlencode_byte c) = O
  /\ count_char "#" (urlencode_byte c) = O.
Proof.
  destruct c as [[] [] [] [] [] [] [] []]; vm_compute; repeat split.
Qed.

Lemma urlencode_no_delimiter (s : string) :
  count_char "?" (urlencode s) = O
  /\ count_char "&" (urlencode s) = O
  /\ count_char "=" (urlencode s) = O
  /\ count_char "#" (urlencode s) = O.
Proof.
  induction s as [|c s (IH1 & IH2 & IH3 & IH4)]; [repeat split|].
  destruct (urlencode_byte_no_delimiter c) as (H1 & H2 & H3 & H4).
  cbn [urlencode]. rewrite !count_char_app. repeat split; lia.
Qed.

Lemma urlencode_pair_delimiters (kv : string * string) :
  count_char "?" (urlencode_pair kv) = O
  /\ count_char "&" (urlencode_pair kv) = O
  /\ count_char "=" (urlencode_pair kv) = 1%nat
  /\ count_char "#" (urlencode_pair kv) = O.
Proof.
  unfold urlencode_pair.
  destruct (urlencode_no_delimiter (fst kv)) as (H1 & H2 & H3 & H4).
  destruct (urlencode_no_delimiter (snd kv)) as (K1 & K2 & K3 & K4).
  rewrite !count_char_app, H1, H2, H3, H4, K1, K2, K3, K4. repeat split.
Qed.

Lemma append_empty (s1 s2 : string) : s1 +:+ s2 = "" -> s1 = "".
Proof. destruct s1; [reflexivity | discriminate]. Qed.

Lemma urlencode_pair_nonempty (kv : string * string) : urlencode_pair kv <> "".
Proof.
  unfold urlencode_pair. intros H.
  pose proof (append_empty _ _ H) as Hk. rewrite Hk in H. discriminate.
Qed.

(** Only the empty mapping serialises to the empty query string. *)
Lemma URLSearchParams_toString_empty (params : list (string * string)) :
  URLSearchParams_toString params = "" <-> params = [].
Proof.
  split; [|intros ->; reflexivity].
  unfold URLSearchParams_toString. destruct params as [|kv params]; [reflexivity|].
  intros H. exfalso. apply (urlencode_pair_nonempty kv).
  cbn [map String.concat] in H.
  destruct (map urlencode_pair params); [assumption|].
  now apply append_empty in H.
Qed.

Lemma plus_to_space_app (s1 s2 : string) :
  plus_to_space (s1 +:+ s2) = plus_to_space s1 +:+ plus_to_space s2.
Proof.
  induction s1 as [|c s1 IH]; [reflexivity|].
  change (String c s1 +:+ s2) with (String c (s1 +:+ s2)).
  cbn [plus_to_space]. now rewrite IH.
Qed.

(** Decoding gives back the byte that was encoded, whatever follows. *)
Lemma urldecode_byte (c : ascii) (rest : string) :
  percent_decode (plus_to_space (urlencode_byte c) +:+ rest)
  = String c (percent_decode rest).
Proof.
  destruct c as [[] [] [] [] [] [] [] []]; reflexivity.
Qed.

Lemma urldecode_urlencode (s : string) : urldecode (urlencode s) = s.
Proof.
  unfold urldecode. induction s as [|c s IH]; [reflexivity|].
  cbn [urlencode]. now rewrite plus_to_space_app, urldecode_byte, IH.
Qed.

Lemma split_first_app (c : ascii) (a b : string) :
  count_char c a = O -> split_first c (a +:+ String c b) = (a, b).
Proof.
  induction a as [|x a IH]; intros Hcount.
  - change ("" +:+ String c b) with (String c b).
    cbn [split_first]. now rewrite Ascii.eqb_refl.
  - change (String x a +:+ String c b) with (String x (a +:+ String c b)).
    cbn [count_char] in Hcount. cbn [split_first].
    destruct (Ascii.eqb x c); [discriminate|]. now rewrite IH.
Qed.

Lemma split_on_none (c : ascii) (a : string) :
  count_char c a = O -> split_on c a = [a].
Proof.
  induction a as [|x a IH]; intros Hcount; [reflexivity|].
  cbn [count_char] in Hcount. cbn [split_on].
  destruct (Ascii.eqb x c); [discriminate|]. now rewrite IH.
Qed.

Lemma split_on_app (c : ascii) (a b : string) :
  count_char c a = O -> split_on c (a +:+ String c b) = a :: split_on c b.
Proof.
  induction a as [|x a IH]; intros Hcount.
  - change ("" +:+ String c b) with (String c b).
    cbn [split_on]. now rewrite Ascii.eqb_refl.
  - change (String x a +:+ String c b) with (String x (a +:+ String c b)).
    cbn [count_char] in Hcount. cbn [split_on].
    destruct (Ascii.eqb x c); [discriminate|]. now rewrite IH.
Qed.

Lemma parse_pair_urlencode_pair (kv : string * string) :
  parse_pair (urlencode_pair kv) = kv.
Proof.
  destruct kv as [k v]. unfold parse_pair, urlencode_pair. cbn [fst snd].
  change (urlencode k +:+ "=" +:+ urlencode v)
    with (urlencode k +:+ String "=" (urlencode v)).
  rewrite split_first_app by apply urlencode_no_delimiter.
  now rewrite !urldecode_urlencode.
Qed.

Lemma split_on_query (kv : string * string) (params : list (string * string)) :
  split_on "&" (URLSearchParams_toString (kv :: params))
  = map urlencode_pair (kv :: params).
Proof.
  unfold URLSearchParams_toString. revert kv.
  induction params as [|kv' params IH]; intros kv.
  - cbn [map String.concat]. apply split_on_none, urlencode_pair_delimiters.
  - cbn [map String.concat].
    change (urlencode_pair kv +:+ "&" +:+ ?q)
      with (urlencode_pair kv +:+ String "&" q).
    rewrite split_on_app by apply urlencode_pair_delimiters.
    f_equal. apply (IH kv').
Qed.

(** The query string of a mapping parses back to the mapping. *)
Lemma URLSearchParams_round_trip (params : list (string * string)) :
  URLSearchParams_parse (URLSearchParams_toString params) = params.
Proof.
  destruct params as [|kv params]; [reflexivity|].
  unfold URLSearchParams_parse. rewrite split_on_query.
  induction (kv :: params) as [|p l IH]; [reflexivity|].
  cbn [map List.filter].
  destruct (String.eqb_spec (urlencode_pair p) "") as [He|_].
  - now apply urlencode_pair_nonempty in He.
  - cbn [negb map]. now rewrite parse_pair_urlencode_pair, IH.
Qed.

(** ** The wrappers *)

Section WrapperClaims.

Context {platform : Platform}.
Variable net : nat -> raw_outcome.

(** The payload [events.ingest] hands to [request]. *)
Lemma ingest_run now event st o :
  heap st !! event = Some o ->
  EventsClient_ingest net now event st =
  if truthy (get_field o "occurred_at") then
    request net "POST" "/api/v1/events" (JObj o) [] st
  else
    request net "POST" "/api/v1/events"
      (JObj (set_field "occurred_at" (JStr now) o)) []
      {| this := this st;
         heap := alter (set_field "occurred_at" (JStr now)) event (heap st);
         calls := calls st; log := log st |}.
Proof.
  intros Hev. unfold EventsClient_ingest, bind, load. rewrite Hev.
  destruct (truthy (get_field o "occurred_at")); cbn [negb].
  - unfold ret. now rewrite Hev.
  - unfold store_field. cbn [heap]. now rewrite lookup_alter_eq, Hev.
Qed.

(** C7 (amended). [events.ingest] on an event object hands to [request],
    as a POST to the events path, the caller's own object: with
    [occurred_at] set to the clock's timestamp and every other field as
    it was when [occurred_at] is absent or falsy (null, the empty
    string, 0); unchanged when [occurred_at] is truthy. *)
Theorem ingest_payload now event st o :
  heap st !! event = Some o ->
  exists payload st1,
    EventsClient_ingest net now event st
    = request net "POST" "/api/v1/events" (JObj payload) [] st1
    /\ heap st1 !! event = Some payload
    /\ request_body "POST" (JObj payload) = Some (JSON_stringify (JObj payload))
    /\ (truthy (get_field o "occurred_at") = false ->
        lookup_field "occurred_at" payload = Some (JStr now)
        /\ forall k, k <> "occurred_at" -> lookup_field k payload = lookup_field k o)
    /\ (truthy (get_field o "occurred_at") = true -> payload = o).
Proof.
  intros Hev. rewrite (ingest_run _ _ _ _ Hev).
  destruct (truthy (get_field o "occurred_at")).
  - exists o, st. repeat split; auto; discriminate.
  - eexists _, _. split; [reflexivity|]. cbn [heap].
    rewrite lookup_alter_eq, Hev. repeat split; try discriminate.
    + apply lookup_set_field_eq.
    + intros k Hk. apply lookup_set_field_ne. congruence.
Qed.

(** C10 (amended). [events.ingest] writes into the object it is given:
    when [occurred_at] is absent or falsy, the caller's object has
    [occurred_at] set to the clock's timestamp once the call is over;
    when [occurred_at] is truthy the object is as before; no other
    object of the caller is touched. *)
Theorem ingest_mutates_argument now event st o :
  heap st !! event = Some o ->
  let st' := snd (EventsClient_ingest net now event st) in
  (truthy (get_field o "occurred_at") = false ->
   heap st' !! event = Some (set_field "occurred_at" (JStr now) o)
   /\ get_field (set_field "occurred_at" (JStr now) o) "occurred_at" = JStr now)
  /\ (truthy (get_field o "occurred_at") = true -> heap st' !! event = Some o)
  /\ (forall l, l <> event -> heap st' !! l = heap st !! l).
Proof.
  intros Hev st'. subst st'. rewrite (ingest_run _ _ _ _ Hev).
  destruct (truthy (get_field o "occurred_at")).
  - destruct (request net _ _ _ _ st) as [r st'] eqn:Hrun.
    apply request_frame in Hrun. destruct Hrun as (_ & Hheap & _).
    cbn [snd]. rewrite Hheap. repeat split; auto; discriminate.
  - match goal with |- context [request net ?m ?p ?d ?ov ?s] =>
      destruct (request net m p d ov s) as [r st'] eqn:Hrun end.
    apply request_frame in Hrun. destruct Hrun as (_ & Hheap & _).
    cbn [snd]. rewrite Hheap. cbn [heap]. repeat split; try discriminate.
    + now rewrite lookup_alter_eq, Hev.
    + unfold get_field. now rewrite lookup_set_field_eq.
    + intros l Hl. now apply lookup_alter_ne.
Qed.

(** C8. [templates.list] calls [request] with the method GET, no
    payload and no header overrides (so no body is sent), and a path
    made of the templates path and of a query that carries the options
    mapping: cut at its [?], the path gives the templates path and a
    query string that parses back to exactly the names and values of the
    mapping, in their order. For the empty mapping the path is the bare
    templates path, and for the mapping with [channel] set to [zns] it
    is the path that ends in [?channel=zns]. *)
Theorem templates_list_query (options : list (string * string)) st :
  exists path,
    TemplatesClient_list net options st = request net "GET" path JNull [] st
    /\ request_body "GET" JNull = None
    /\ fst (split_first "?" path) = "/api/v1/templates"
    /\ URLSearchParams_parse (snd (split_first "?" path)) = options
    /\ (options = [] -> path = "/api/v1/templates")
    /\ (options = [("channel", "zns")] -> path = "/api/v1/templates?channel=zns").
Proof.
  unfold TemplatesClient_list. cbv zeta.
  destruct (String.eqb_spec (URLSearchParams_toString options) "") as [He|Hne].
  - apply URLSearchParams_toString_empty in He. subst options.
    cbn [negb]. eexists. split; [reflexivity|]. repeat split. discriminate.
  - cbn [negb]. eexists. split; [reflexivity|].
    split; [reflexivity|]. split; [reflexivity|].
    split; [cbn [split_first snd]; apply URLSearchParams_round_trip|].
    split.
    + intros ->. now contradiction Hne.
    + intros ->. reflexivity.
Qed.

End WrapperClaims.

(** ** The model on concrete inputs *)

(** C1. The constructor replaces a retry count of 0 by the default 3: a
    client built with [retries: 0] on a network that refuses every
    connection makes four calls, sleeping 1, 2 and 4 seconds between
    them, before it throws the transport error. *)
Theorem zero_retries_still_retries :
  new_NotiBoost {| opt_apiKey := Some "k"; opt_baseURL := None;
                   opt_timeout := None; opt_retries := Some 0 |}
  = inr (with_retries 0)
  /\ retries (with_retries 0) = 3
  /\ let run := request (platform := example_platform) net_refused
                  "GET" "/api/v1/users/u1" JNull [] (start (with_retries 0) ∅) in
     fst run = Thrown (Exn (Error "ECONNREFUSED"))
     /\ calls (snd run) = 4%nat
     /\ sleeps (log (snd run)) = [Int 1000; Int 2000; Int 4000].
Proof. vm_compute. repeat split. Qed.

(** The example runtime on the payloads and bodies of the examples. *)
Example example_runtime :
  example_JSON_stringify payload_a_1 = text_a_1
  /\ example_JSON_stringify (JObj event_null)
     = "{" +:+ dquote +:+ "event_name" +:+ dquote +:+ ":" +:+ dquote +:+ "x" +:+ dquote
       +:+ "," +:+ dquote +:+ "occurred_at" +:+ dquote +:+ ":null}"
  /\ fst (request (platform := example_platform)
            (fun _ => RawResponse 200 ∅ [text_ok_true])
            "GET" "/api/v1/users/u1" JNull [] (start default_client ∅))
     = Normal (JObj [("ok", JBool true)]).
Proof. vm_compute. repeat split. Qed.

(** C2. A 429 response whose [retry-after] header is an HTTP date, with
    retries left: [parseInt] finds no digits, the delay handed to
    [_sleep] is [NaN] and not 1000 milliseconds, and the call is made
    again. *)
Theorem unparsable_retry_after_sleeps_NaN :
  let run := request (platform := example_platform) net_429_date
               "GET" "/api/v1/users/u1" JNull [] (start default_client ∅) in
  retries default_client = 3
  /\ parseInt "Wed, 21 Oct 2015 07:28:00 GMT" = NaN
  /\ fst run = Normal (JObj [])
  /\ calls (snd run) = 2%nat
  /\ sleeps (log (snd run)) = [NaN].
Proof. vm_compute. repeat split. Qed.

(** The retry delays that do follow the header: 120 seconds for [120],
    one second without the header. *)
Example retry_after_examples :
  number_mul (parseInt (retry_after_text {[ "retry-after" := "120" ]})) (Int 1000)
  = Int 120000
  /\ number_mul (parseInt (retry_after_text ∅)) (Int 1000) = Int 1000.
Proof. vm_compute. split; reflexivity. Qed.

(** Above 2^53 the number read is rounded: 2^53 + 1 seconds are read as
    2^53 seconds. *)
Example large_retry_after_is_rounded :
  parseInt "9007199254740993" = Int 9007199254740992
  /\ number_mul
       (parseInt (retry_after_text {[ "retry-after" := "9007199254740993" ]}))
       (Int 1000)
     = Int 9007199254740992000.
Proof. vm_compute. split; reflexivity. Qed.

(** Three connections refused with a retry count of 2: the second call
    is followed by a sleep of 2 seconds and a third call. *)
Lemma transport_failure_backoff_witness :
  let st := start (with_retries 2) ∅ in
  let run := request (platform := example_platform) net_refused
               "GET" "/api/v1/users/u1" JNull [] st in
  (Z.of_nat 1 < retries (this st) ->
   exists ro w l1 l2,
     log (snd run) = log st ++ l1 ++ HttpRequest ro w
                 :: Sleep (Int (2 ^ Z.of_nat 1 * 1000)) :: HttpRequest ro w :: l2
     /\ count_requests l1 = 1%nat)
  /\ (retries (this st) <= Z.of_nat 1 ->
      fst run = Thrown (Exn (Error "ECONNREFUSED"))
      /\ calls (snd run) = S (calls st + 1)).
Proof.
  cbv zeta.
  apply (transport_failure_backoff (platform := example_platform) net_refused
           "GET" "/api/v1/users/u1" JNull [] (start (with_retries 2) ∅)).
  - apply surjective_pairing.
  - vm_compute. lia.
  - reflexivity.
Defined.

(** C4, as stated, fails: a 500 response whose body is the JSON object
    with [message] set to the empty string has a [message] field, and
    the error's message is [HTTP 500], not that field. *)
Lemma empty_message_is_replaced :
  let run := request (platform := example_platform) net_500
               "GET" "/api/v1/users/u1" JNull [] (start default_client ∅) in
  JSON_parse (Platform := example_platform) text_empty_message
  = Some (JObj [("message", JStr "")])
  /\ lookup_field "message" [("message", JStr "")] = Some (JStr "")
  /\ fst run = Thrown (Exn (NotiBoostError "HTTP 500" 500
                              (JObj [("message", JStr "")])))
  /\ "HTTP 500" <> "".
Proof. vm_compute. repeat split. discriminate. Qed.

(** The specification's example: a client built with [retries: 0] and a
    handler that always answers 500 make exactly one call and fail with
    status 500. *)
Lemma api_error_not_retried_witness :
  let st := start (with_retries 0) ∅ in
  let run := request (platform := example_platform) net_500
               "GET" "/api/v1/users/u1" JNull [] st in
  fst run = Thrown (Exn (NotiBoostError "HTTP 500" 500
                           (JObj [("message", JStr "")])))
  /\ calls (snd run) = 1%nat.
Proof.
  cbv zeta.
  refine (let H := api_error_not_retried (platform := example_platform) net_500
                     "GET" "/api/v1/users/u1" JNull [] (start (with_retries 0) ∅)
                     _ _ 0 500 ∅ [text_empty_message] "HTTP 500" _ _ _ _ _ _ in
          conj (proj1 H) (proj1 (proj2 H))).
  - apply surjective_pairing.
  - vm_compute. lia.
  - reflexivity.
  - right. lia.
  - lia.
  - reflexivity.
Defined.

(** A message that is no string is converted: with the body whose
    [message] is the number 42, the error's message is the text [42]. *)
Example number_message_is_converted :
  fst (request (platform := example_platform) net_500_number
         "GET" "/api/v1/users/u1" JNull [] (start default_client ∅))
  = Thrown (Exn (NotiBoostError "42" 500 (JObj [("message", JNum (Int 42))]))).
Proof. vm_compute. reflexivity. Qed.

(** A character cut by the end of a chunk is lost: each of its two
    bytes, decoded on its own, becomes U+FFFD. *)
Example cut_character_is_replaced :
  fst (request (platform := example_platform) net_200_cut
         "GET" "/api/v1/users/u1" JNull [] (start default_client ∅))
  = Normal (JObj [("message", JStr ("O" +:+ replacement +:+ replacement +:+ "K"))])
  /\ example_Buffer_toString
       (String "O" (String (ascii_of_nat 195) (String (ascii_of_nat 169) (String "K" ""))))
     = String "O" (String (ascii_of_nat 195) (String (ascii_of_nat 169) (String "K" ""))).
Proof. vm_compute. split; reflexivity. Qed.

(** C5, as stated, fails: the empty text is not JSON, and a 204
    response without a body returns the empty object, not an object with
    a [message] field. *)
Lemma empty_body_is_empty_object :
  let run := request (platform := example_platform) net_204
               "DELETE" "/api/v1/users/u1" JNull [] (start default_client ∅) in
  JSON_parse (Platform := example_platform) "" = None
  /\ fst run = Normal (JObj [])
  /\ JObj [] <> JObj [("message", JStr "")].
Proof. vm_compute. repeat split. discriminate. Qed.

(** The specification's example: a 200 response with the text [OK] as
    body returns the object whose [message] is [OK]. *)
Lemma success_returns_parsed_body_witness :
  let st := start default_client ∅ in
  let run := request (platform := example_platform) net_200_OK
               "GET" "/api/v1/users/u1" JNull [] st in
  let body := fold_left String.append ["O"; "K"] "" in
  calls (snd run) = S (calls st + 0)
  /\ (body = "" -> fst run = Normal (JObj []))
  /\ (body <> "" -> forall v,
        JSON_parse (Platform := example_platform) body = Some v -> fst run = Normal v)
  /\ (body <> "" -> JSON_parse (Platform := example_platform) body = None ->
      fst run = Normal (JObj [("message", JStr "OK")])).
Proof.
  cbv zeta.
  apply (success_returns_parsed_body (platform := example_platform) net_200_OK
           "GET" "/api/v1/users/u1" JNull [] (start default_client ∅) _ _ 0
           200 ∅ ["O"; "K"]).
  - apply surjective_pairing.
  - vm_compute. lia.
  - reflexivity.
  - lia.
  - repeat constructor.
Defined.

(** C6, as stated, fails: a caller who names [Authorization] and
    [Content-Length] in the overrides of a POST with a payload gets the
    own [Authorization] sent, not the bearer credential, and does not
    get the own [Content-Length] sent, but the byte length of the
    serialised payload. *)
Lemma content_length_override_is_overwritten :
  let run := request (platform := example_platform) net_204
               "POST" "/api/v1/users" payload_a_1 override_both
               (start default_client ∅) in
  let sent := request_options default_client users_url "POST" override_both
                (Some text_a_1) in
  log (snd run) = [HttpRequest sent (Some text_a_1)]
  /\ lookup_field "Authorization" (ro_headers sent) = Some (JStr "Basic dXNlcg==")
  /\ JStr "Basic dXNlcg==" <> JStr ("Bearer " +:+ apiKey default_client)
  /\ lookup_field "Content-Length" override_both = Some (JStr "0")
  /\ lookup_field "Content-Length" (ro_headers sent) = Some (JNum (Int 7))
  /\ JNum (Int 7) <> JStr "0".
Proof. vm_compute. repeat split; discriminate. Qed.

(** A POST with the idempotency key of the README as override. *)
Lemma request_headers_sent_witness :
  let st := start default_client ∅ in
  let sent := request_options default_client users_url "POST" override_idempotency
                (Some text_a_1) in
  (lookup_field "Authorization" override_idempotency = None ->
   lookup_field "Authorization" (ro_headers sent)
   = Some (JStr ("Bearer " +:+ apiKey (this st))))
  /\ (lookup_field "Content-Type" override_idempotency = None ->
      lookup_field "Content-Type" (ro_headers sent) = Some (JStr "application/json"))
  /\ (forall k v,
        lookup_field k override_idempotency = Some v ->
        k <> "Content-Length" \/ request_body (platform := example_platform)
                                   "POST" payload_a_1 = None ->
        lookup_field k (ro_headers sent) = Some v)
  /\ (forall b,
        request_body (platform := example_platform) "POST" payload_a_1 = Some b ->
        lookup_field "Content-Length" (ro_headers sent)
        = Some (JNum (Int (Z.of_nat (String.length b))))).
Proof.
  cbv zeta.
  pose (run := request (platform := example_platform) net_204
                 "POST" "/api/v1/users" payload_a_1 override_idempotency
                 (start default_client ∅)).
  apply (request_headers_sent (platform := example_platform) net_204
           "POST" "/api/v1/users" payload_a_1 override_idempotency
           (start default_client ∅) (fst run) (snd run) (log (snd run)) _
           (Some text_a_1)).
  - apply surjective_pairing.
  - reflexivity.
  - vm_compute. left. reflexivity.
  - vm_compute. apply NoDup_singleton.
Defined.

(** C7, as stated, fails: an event whose [occurred_at] is [null] has the
    field, and the payload handed to [request] is not the event as
    given: its [occurred_at] is the clock's timestamp. *)
Lemma null_occurred_at_is_overwritten :
  let st := start default_client {[ 1%positive := event_null ]} in
  let sent := [("event_name", JStr "x"); ("occurred_at", JStr clock)] in
  lookup_field "occurred_at" event_null = Some JNull
  /\ EventsClient_ingest (platform := example_platform) net_204 clock 1%positive st
     = request (platform := example_platform) net_204
         "POST" "/api/v1/events" (JObj sent) []
         (start default_client {[ 1%positive := sent ]})
  /\ sent <> event_null.
Proof. vm_compute. repeat split. discriminate. Qed.

(** The specification's example: an event without [occurred_at]. *)
Lemma ingest_payload_witness :
  let st := start default_client {[ 1%positive := event_plain ]} in
  exists payload st1,
    EventsClient_ingest (platform := example_platform) net_204 clock 1%positive st
    = request (platform := example_platform) net_204
        "POST" "/api/v1/events" (JObj payload) [] st1
    /\ heap st1 !! 1%positive = Some payload
    /\ request_body (platform := example_platform) "POST" (JObj payload)
       = Some (JSON_stringify (Platform := example_platform) (JObj payload))
    /\ (truthy (get_field event_plain "occurred_at") = false ->
        lookup_field "occurred_at" payload = Some (JStr clock)
        /\ forall k, k <> "occurred_at" ->
                     lookup_field k payload = lookup_field k event_plain)
    /\ (truthy (get_field event_plain "occurred_at") = true -> payload = event_plain).
Proof.
  cbv zeta.
  apply (ingest_payload (platform := example_platform) net_204 clock 1%positive
           (start default_client {[ 1%positive := event_plain ]}) event_plain).
  reflexivity.
Defined.

(** C10, as stated, fails: an event that carries [occurred_at], as the
    empty string, is modified by the call. *)
Lemma blank_occurred_at_is_overwritten :
  let st := start default_client {[ 1%positive := event_blank ]} in
  let st' := snd (EventsClient_ingest (platform := example_platform)
                    net_204 clock 1%positive st) in
  lookup_field "occurred_at" event_blank = Some (JStr "")
  /\ heap st' !! 1%positive
     = Some [("occurred_at", JStr clock); ("event_name", JStr "x")]
  /\ heap st' !! 1%positive <> heap st !! 1%positive.
Proof. vm_compute. repeat split. discriminate. Qed.

(** The specification's example: after the call the caller's object has
    [occurred_at]. *)
Lemma ingest_mutates_argument_witness :
  let st := start default_client {[ 1%positive := event_plain ]} in
  let st' := snd (EventsClient_ingest (platform := example_platform)
                    net_204 clock 1%positive st) in
  (truthy (get_field event_plain "occurred_at") = false ->
   heap st' !! 1%positive = Some (set_field "occurred_at" (JStr clock) event_plain)
   /\ get_field (set_field "occurred_at" (JStr clock) event_plain) "occurred_at"
      = JStr clock)
  /\ (truthy (get_field event_plain "occurred_at") = true ->
      heap st' !! 1%positive = Some event_plain)
  /\ (forall l, l <> 1%positive -> heap st' !! l = heap st !! l).
Proof.
  cbv zeta.
  apply (ingest_mutates_argument (platform := example_platform) net_204 clock
           1%positive (start default_client {[ 1%positive := event_plain ]})
           event_plain).
  reflexivity.
Defined.

(** * Further properties of the code *)

(** ** The constructor *)

(** X1. The constructor throws, with the message [API key is required],
    exactly when the API key is absent or empty; a client that is built
    holds the key it was given. *)
Theorem constructor_requires_key (options : Options) :
  (new_NotiBoost options = inl (Error "API key is required")
   <-> opt_apiKey options = None \/ opt_apiKey options = Some "")
  /\ (forall c, new_NotiBoost options = inr c -> opt_apiKey options = Some (apiKey c)).
Proof.
  unfold new_NotiBoost. destruct (opt_apiKey options) as [key|].
  - destruct (String.eqb_spec key "") as [->|Hne].
    + split; [split; auto|]. discriminate.
    + split.
      * split; [discriminate|]. intros [H|H]; [discriminate|congruence].
      * intros c H. injection H as <-. reflexivity.
  - split; [split; auto|]. discriminate.
Qed.

(** X2. No client holds a falsy setting: whatever the options, the key
    and the base URL of a client that is built are not empty, and its
    timeout and its retry count are not 0 (a 0 given for either is
    replaced by the default, 30000 or 3). *)
Theorem constructor_never_stores_falsy (options : Options) (c : NotiBoostClient) :
  new_NotiBoost options = inr c ->
  apiKey c <> "" /\ baseURL c <> "" /\ timeout c <> 0 /\ retries c <> 0.
Proof.
  unfold new_NotiBoost. destruct (opt_apiKey options) as [key|]; [|discriminate].
  destruct (String.eqb_spec key "") as [->|Hkey]; [discriminate|].
  intros H. injection H as <-. cbn [apiKey baseURL timeout retries].
  repeat split; [assumption| | |].
  - unfold string_or. destruct (opt_baseURL options) as [b|]; [|discriminate].
    destruct (String.eqb_spec b ""); [discriminate|assumption].
  - unfold Z_or. destruct (opt_timeout options) as [t|]; [|discriminate].
    destruct (Z.eqb_spec t 0); [discriminate|assumption].
  - unfold Z_or. destruct (opt_retries options) as [r|]; [|discriminate].
    destruct (Z.eqb_spec r 0); [discriminate|assumption].
Qed.

(** ** More on the runs of [request] *)

Section MoreRuns.

Context {platform : Platform}.
Variable net : nat -> raw_outcome.

(** A pass that is entered makes a call. *)
Lemma request_loop_makes_call fuel ro body attempt lastError st r st' :
  attempt <= retries (this st) ->
  r <> OutOfFuel ->
  request_loop net fuel ro body attempt lastError st = (r, st') ->
  (calls st < calls st')%nat.
Proof.
  intros Hle Hfuel Hrun.
  destruct fuel as [|fuel]; [injection Hrun as <- _; congruence|].
  rewrite request_loop_step in Hrun. apply Z.leb_le in Hle. rewrite Hle in Hrun.
  destruct (attempt_once net ro body attempt lastError st) as [r1 st1] eqn:Hpass.
  destruct (attempt_once_frame _ _ _ _ _ _ _ _ Hpass) as (_ & _ & Hcalls & _ & _).
  destruct r1 as [[le'|v]|t|]; try (injection Hrun as <- <-; lia).
  apply request_loop_frame in Hrun. lia.
Qed.

(** X4. A dispatch makes no HTTP call at all exactly when the URL does
    not parse or the retry count of the client is negative. *)
Theorem request_no_call_iff method path data overrides st :
  calls (snd (request net method path data overrides st)) = calls st
  <-> URL_parse (baseURL (this st) +:+ path) = None \/ retries (this st) < 0.
Proof.
  split.
  - intros Hsame.
    destruct (URL_parse (baseURL (this st) +:+ path)) as [url|] eqn:Hurl; [|now left].
    right. destruct (Z.lt_ge_cases (retries (this st)) 0) as [Hlt|Hge]; [assumption|].
    pose proof (request_first_attempt net method path data overrides st) as Hfirst.
    rewrite Hurl in Hfirst. specialize (Hfirst (ltac:(eauto)) Hge). lia.
  - intros [Hurl|Hneg].
    + now rewrite (request_invalid_url _ _ _ _ _ _ Hurl).
    + destruct (URL_parse (baseURL (this st) +:+ path)) as [url|] eqn:Hurl.
      * rewrite (request_run _ _ _ _ _ _ _ Hurl), request_loop_step.
        replace (0 <=? retries (this st)) with false by lia. reflexivity.
      * now rewrite (request_invalid_url _ _ _ _ _ _ Hurl).
Qed.

(** The pass that makes the last call of a dispatch ends the dispatch. *)
Lemma last_call_decides method path data overrides st r st' :
  request net method path data overrides st = (r, st') ->
  (calls st < calls st')%nat ->
  match net (calls st' - 1)%nat with
  | RawResponse status hdrs chunks =>
      let d := parse_body (received chunks) in
      if (200 <=? status) && (status <? 300) then r = Normal d
      else r = Thrown (Exn (api_error status d))
  | RawError message => r = Thrown (Exn (Error message))
  | RawTimeout => r = Thrown (Exn (Error "Request timeout"))
  end.
Proof.
  intros Hrun Hmade.
  pose proof (request_total net method path data overrides st) as Htotal.
  rewrite Hrun in Htotal. cbn [fst] in Htotal.
  assert (Hj : (calls st + (calls st' - calls st - 1) < calls st')%nat) by lia.
  destruct (request_reaches _ _ _ _ _ _ _ _ _ Hrun Hj)
    as (url & fuel & le & stj & l & Hpass & Hidx & Hthis & Hcalls & _).
  cbv zeta in Hpass. rewrite request_loop_step in Hpass.
  rewrite <- Hthis in Hidx. pose proof Hidx as Hidx'.
  apply Z.leb_le in Hidx. rewrite Hidx in Hpass.
  replace (calls st' - 1)%nat with (calls stj) by lia.
  set (a := Z.of_nat (calls st' - calls st - 1)) in *.
  assert (Hstop : forall le' ms,
             request_loop net fuel
               (request_options (this st) url method overrides (request_body method data))
               (request_body method data) (a + 1) le'
               (logged (Sleep ms)
                  (after_call
                     (request_options (this st) url method overrides
                        (request_body method data))
                     (request_body method data) stj)) = (r, st') ->
             a < retries (this stj) -> False).
  { intros le' ms Hrest Hlt.
    apply request_loop_makes_call in Hrest; [|cbn [this logged called after_call]; lia
                                             |assumption].
    cbn [calls logged called after_call] in Hrest. lia. }
  destruct (net (calls stj)) as [status hdrs chunks|message|] eqn:Hnet.
  - rewrite (attempt_once_response _ _ _ _ _ _ _ _ _ Hnet) in Hpass. cbv zeta in Hpass.
    cbv zeta. destruct ((200 <=? status) && (status <? 300)).
    + now injection Hpass as <- _.
    + destruct ((status =? 429) && (a <? retries (this stj))) eqn:Hc.
      * exfalso. apply andb_true_iff in Hc as [_ Hlt]. apply Z.ltb_lt in Hlt.
        eapply Hstop; eassumption.
      * destruct ((a <? retries (this stj))
                  && negb (instanceof_NotiBoostError
                             (Exn (api_error status (parse_body (received chunks))))))
          eqn:Hc'.
        -- exfalso. apply andb_true_iff in Hc' as [Hlt _]. apply Z.ltb_lt in Hlt.
           eapply Hstop; eassumption.
        -- now injection Hpass as <- _.
  - rewrite (attempt_once_failure _ _ _ _ _ _ (Error message)) in Hpass
      by (rewrite Hnet; reflexivity).
    cbv zeta in Hpass. destruct (Z.ltb_spec a (retries (this stj))) as [Hlt|Hge].
    + exfalso. eapply Hstop; eassumption.
    + now injection Hpass as <- _.
  - rewrite (attempt_once_failure _ _ _ _ _ _ (Error "Request timeout")) in Hpass
      by (rewrite Hnet; reflexivity).
    cbv zeta in Hpass. destruct (Z.ltb_spec a (retries (this stj))) as [Hlt|Hge].
    + exfalso. eapply Hstop; eassumption.
    + now injection Hpass as <- _.
Qed.

(** X5. A dispatch rejects with [undefined] (the [lastError] that was
    never set) exactly when the URL parses and the retry count of the
    client is negative; in every other case it returns a value or
    throws an error object. *)
Theorem request_throws_undefined_iff method path data overrides st :
  fst (request net method path data overrides st) = Thrown ExnUndefined
  <-> is_Some (URL_parse (baseURL (this st) +:+ path)) /\ retries (this st) < 0.
Proof.
  destruct (request net method path data overrides st) as [r st'] eqn:Hrun.
  cbn [fst]. split.
  - intros ->.
    destruct (URL_parse (baseURL (this st) +:+ path)) as [url|] eqn:Hurl.
    2:{ rewrite (request_invalid_url _ _ _ _ _ _ Hurl) in Hrun. discriminate. }
    split; [eauto|].
    destruct (Z.lt_ge_cases (retries (this st)) 0) as [Hlt|Hge]; [assumption|].
    exfalso.
    pose proof (request_first_attempt net method path data overrides st) as Hfirst.
    rewrite Hurl, Hrun in Hfirst. specialize (Hfirst (ltac:(eauto)) Hge).
    cbn [snd] in Hfirst.
    pose proof (last_call_decides _ _ _ _ _ _ _ Hrun Hfirst) as Hlast.
    destruct (net (calls st' - 1)%nat) as [status hdrs chunks|message|];
      cbv zeta in Hlast; try discriminate.
    destruct ((200 <=? status) && (status <? 300)); discriminate.
  - intros [[url Hurl] Hneg].
    rewrite (request_run _ _ _ _ _ _ _ Hurl), request_loop_step in Hrun.
    replace (0 <=? retries (this st)) with false in Hrun by lia.
    now injection Hrun as <- _.
Qed.

(** X17. The result of a dispatch is decided by its last HTTP call
    alone: a 2xx response there is returned as its parsed body, any
    other response is thrown as what [new NotiBoostError] gives for that
    status and parsed body, and a transport failure is thrown as the
    transport's own error. *)
Theorem request_result_of_last_call method path data overrides st r st' :
  request net method path data overrides st = (r, st') ->
  (calls st < calls st')%nat ->
  match net (calls st' - 1)%nat with
  | RawResponse status hdrs chunks =>
      let d := parse_body (received chunks) in
      if (200 <=? status) && (status <? 300) then r = Normal d
      else r = Thrown (Exn (api_error status d))
  | RawError message => r = Thrown (Exn (Error message))
  | RawTimeout => r = Thrown (Exn (Error "Request timeout"))
  end.
Proof. apply last_call_decides. Qed.

End MoreRuns.

Section RunShape.

Context {platform : Platform}.
Variable net : nat -> raw_outcome.

(** X6. Every retry resends the same request: any two HTTP calls of one
    dispatch carry the same request options (host, port, path, method,
    headers, timeout) and write the same body. *)
Theorem request_resends_same_request method path data overrides st r st' l
    o1 w1 o2 w2 :
  request net method path data overrides st = (r, st') ->
  log st' = log st ++ l ->
  In (HttpRequest o1 w1) l ->
  In (HttpRequest o2 w2) l ->
  o1 = o2 /\ w1 = w2.
Proof.
  intros Hrun Hlog Hin1 Hin2.
  destruct (URL_parse (baseURL (this st) +:+ path)) as [url|] eqn:Hurl.
  - rewrite (request_run _ _ _ _ _ _ _ Hurl) in Hrun.
    apply request_loop_frame in Hrun. destruct Hrun as (_ & _ & _ & (l' & Hlog' & Hall)).
    rewrite Hlog in Hlog'. apply app_inv_head in Hlog'. subst l'.
    rewrite Forall_forall in Hall.
    pose proof (Hall _ (proj2 (list_elem_of_In _ _) Hin1)) as [-> ->].
    pose proof (Hall _ (proj2 (list_elem_of_In _ _) Hin2)) as [-> ->].
    split; reflexivity.
  - rewrite (request_invalid_url _ _ _ _ _ _ Hurl) in Hrun. injection Hrun as _ <-.
    rewrite <- (app_nil_r (log st)) in Hlog at 1. apply app_inv_head in Hlog.
    subst l. destruct Hin1.
Qed.

Lemma request_loop_shape fuel ro body :
  forall attempt lastError st r st',
  request_loop net fuel ro body attempt lastError st = (r, st') ->
  r <> OutOfFuel ->
  exists l,
    log st' = log st ++ l
    /\ calls st' = (calls st + count_requests l)%nat
    /\ (l = [] \/
        (count_requests l = S (length (sleeps l))
         /\ exists l' o w, l = l' ++ [HttpRequest o w])).
Proof.
  induction fuel as [|fuel IH]; intros attempt lastError st r st' Hrun Hfuel.
  - injection Hrun as <- _. congruence.
  - rewrite request_loop_step in Hrun.
    destruct (Z.leb_spec attempt (retries (this st))) as [Hle|Hgt].
    2:{ injection Hrun as _ <-. exists []. rewrite app_nil_r.
        repeat split; auto. }
    destruct (attempt_once net ro body attempt lastError st) as [r1 st1] eqn:Hpass.
    apply attempt_once_cases in Hpass. cbv zeta in Hpass.
    destruct Hpass as [(v & -> & ->)|[(le' & ms & -> & -> & Hlt)|(t & -> & ->)]].
    + injection Hrun as _ <-. exists [HttpRequest ro (written_body body)].
      cbn [log calls logged called after_call count_requests sleeps length].
      repeat split; [lia|]. right. split; [reflexivity|]. now exists [], ro, (written_body body).
    + pose proof Hrun as Hrest.
      apply IH in Hrun; [|assumption].
      destruct Hrun as (l2 & Hlog & Hcalls & Hshape).
      apply request_loop_makes_call in Hrest;
        [|cbn [this logged called after_call]; lia|assumption].
      cbn [log calls logged called after_call] in *.
      exists (HttpRequest ro (written_body body) :: Sleep ms :: l2).
      split; [rewrite Hlog; now rewrite <- !app_assoc|].
      cbn [count_requests sleeps length]. split; [lia|]. right.
      destruct Hshape as [->|(Hcount & l' & o & w & ->)].
      * cbn [count_requests] in Hcalls. lia.
      * split; [lia|].
        exists (HttpRequest ro (written_body body) :: Sleep ms :: l'), o, w.
        reflexivity.
    + injection Hrun as _ <-. exists [HttpRequest ro (written_body body)].
      cbn [log calls logged called after_call count_requests sleeps length].
      repeat split; [lia|]. right. split; [reflexivity|]. now exists [], ro, (written_body body).
Qed.

(** X7. The effects of a dispatch alternate: if any HTTP call is made,
    there is exactly one sleep fewer than there are calls, and the last
    effect is a call (the dispatcher never sleeps without calling again
    afterwards). *)
Theorem request_sleeps_between_calls method path data overrides st r st' l :
  request net method path data overrides st = (r, st') ->
  log st' = log st ++ l ->
  calls st' = (calls st + count_requests l)%nat
  /\ (l = [] \/
      (count_requests l = S (length (sleeps l))
       /\ exists l' o w, l = l' ++ [HttpRequest o w])).
Proof.
  intros Hrun Hlog.
  pose proof (request_total net method path data overrides st) as Htotal.
  rewrite Hrun in Htotal. cbn [fst] in Htotal.
  destruct (URL_parse (baseURL (this st) +:+ path)) as [url|] eqn:Hurl.
  - rewrite (request_run _ _ _ _ _ _ _ Hurl) in Hrun.
    apply request_loop_shape in Hrun; [|assumption].
    destruct Hrun as (l' & Hlog' & Hshape).
    rewrite Hlog in Hlog'. apply app_inv_head in Hlog'. now subst l'.
  - rewrite (request_invalid_url _ _ _ _ _ _ Hurl) in Hrun. injection Hrun as _ <-.
    rewrite <- (app_nil_r (log st)) in Hlog at 1. apply app_inv_head in Hlog.
    subst l. split; [cbn; lia | now left].
Qed.

(** X13. A payload is sent only with POST and PUT, and only when it is
    truthy: with any other method (GET, DELETE, PATCH, ...), or with a
    falsy payload, no call of the dispatch writes a body, and the
    [Content-Length] header is whatever the caller's overrides say. *)
Theorem request_without_body method path data overrides st r st' l o w :
  request net method path data overrides st = (r, st') ->
  log st' = log st ++ l ->
  In (HttpRequest o w) l ->
  NoDup (overrides.*1) ->
  truthy data = false \/ (method <> "POST" /\ method <> "PUT") ->
  w = None
  /\ lookup_field "Content-Length" (ro_headers o)
     = lookup_field "Content-Length" overrides.
Proof.
  intros Hrun Hlog Hin Hnd Hside.
  apply request_frame in Hrun. destruct Hrun as (_ & _ & _ & (l' & Hlog' & Hsent)).
  rewrite Hlog in Hlog'. apply app_inv_head in Hlog'. subst l'.
  destruct (Hsent _ _ Hin) as (_ & Hheaders & Hw).
  assert (Hbody : request_body method data = None).
  { unfold request_body. destruct Hside as [->|[Hpost Hput]]; [reflexivity|].
    apply String.eqb_neq in Hpost, Hput. rewrite Hpost, Hput.
    now rewrite andb_false_r. }
  rewrite Hbody in *. split; [assumption|].
  rewrite Hheaders, lookup_request_headers by assumption.
  now destruct (lookup_field "Content-Length" overrides).
Qed.

(** X12. [_makeRequest] goes through the https module exactly when the
    URL names no port and its protocol is [https:]; a URL with an
    explicit port is sent through the http module, whatever its
    protocol, because the port is then a string and not the number
    443. *)
Theorem https_only_without_port c url method overrides body :
  makeRequest_protocol (request_options c url method overrides body) = Https
  <-> url_port url = "" /\ url_protocol url = "https:".
Proof.
  unfold makeRequest_protocol, request_options, request_port. cbn [ro_port].
  destruct (String.eqb_spec (url_port url) "") as [Hport|Hport].
  - destruct (String.eqb_spec (url_protocol url) "https:") as [Hproto|Hproto].
    + split; auto.
    + split; [discriminate|]. intros [_ H]. contradiction.
  - split; [discriminate|]. intros [H _]. contradiction.
Qed.

End RunShape.

(** ** Delays *)

Lemma digit_of_pretty_N_char (d : N) :
  (d < 10)%N -> digit_of (pretty_N_char d) = Some (Z.of_N d).
Proof.
  intros Hd.
  assert (d = 0 \/ d = 1 \/ d = 2 \/ d = 3 \/ d = 4 \/ d = 5 \/ d = 6 \/ d = 7
          \/ d = 8 \/ d = 9)%N as Hcases by lia.
  repeat (destruct Hcases as [->|Hcases]; [reflexivity|]). now subst d.
Qed.

(** Reading the digits that [pretty] writes gives the number back. *)
Lemma leading_digits_pretty_N_go (x : N) :
  (0 < x)%N ->
  exists p, forall s acc,
    leading_digits (pretty_N_go x s) acc
    = leading_digits s (Some (p * default 0 acc + Z.of_N x)).
Proof.
  induction (N.lt_wf_0 x) as [x _ IH]. intros Hpos.
  assert (Hmod : (x `mod` 10 < 10)%N) by (apply N.mod_lt; lia).
  destruct (N.eq_dec (x `div` 10)%N 0%N) as [Hz|Hnz].
  - exists 10. intros s acc. rewrite pretty_N_go_step, Hz, pretty_N_go_0 by assumption.
    cbn [leading_digits]. rewrite digit_of_pretty_N_char by assumption.
    do 2 f_equal. assert (Hdm : x = (10 * (x `div` 10) + x `mod` 10)%N)
      by (apply N.div_mod; discriminate).
    rewrite Hz, N.mul_0_r, N.add_0_l in Hdm. rewrite <- Hdm. reflexivity.
  - destruct (IH (x `div` 10)%N) as [p Hp];
      [apply N.div_lt; lia | now apply N.neq_0_lt_0 |].
    exists (10 * p). intros s acc. rewrite pretty_N_go_step, Hp by assumption.
    cbn [leading_digits]. rewrite digit_of_pretty_N_char by assumption.
    cbn [default]. do 2 f_equal. assert (Hdm : x = (10 * (x `div` 10) + x `mod` 10)%N)
      by (apply N.div_mod; discriminate).
    remember (x `div` 10)%N as q. remember (x `mod` 10)%N as m.
    unfold id. clear Heqq Heqm IH Hp. lia.
Qed.

Lemma pretty_N_go_starts_with_digit (x : N) (s : string) :
  (0 < x)%N ->
  exists d rest, (d < 10)%N /\ pretty_N_go x s = String (pretty_N_char d) rest.
Proof.
  revert s. induction (N.lt_wf_0 x) as [x _ IH]. intros s Hpos.
  assert (Hmod : (x `mod` 10 < 10)%N) by (apply N.mod_lt; lia).
  rewrite pretty_N_go_step by assumption.
  destruct (N.eq_dec (x `div` 10)%N 0%N) as [Hz|Hnz].
  - rewrite Hz, pretty_N_go_0. eauto.
  - apply IH; [apply N.div_lt; lia | now apply N.neq_0_lt_0].
Qed.

(** A text that starts with a decimal digit has no white space and no
    sign for [parseInt] to skip. *)
Lemma parseInt_digit_first (d : N) (rest : string) :
  (d < 10)%N ->
  parseInt (String (pretty_N_char d) rest)
  = match leading_digits (String (pretty_N_char d) rest) None with
    | Some n => Int (to_double n)
    | None => NaN
    end.
Proof.
  intros Hd.
  assert (d = 0 \/ d = 1 \/ d = 2 \/ d = 3 \/ d = 4 \/ d = 5 \/ d = 6 \/ d = 7
          \/ d = 8 \/ d = 9)%N as Hcases by lia.
  repeat (destruct Hcases as [->|Hcases];
          [destruct rest as [|c2 [|c3 rest]]; reflexivity|]).
  subst d. destruct rest as [|c2 [|c3 rest]]; reflexivity.
Qed.

(** Integers up to 2^53 are not rounded. *)
Lemma to_double_exact (z : Z) : Z.abs z <= 2 ^ 53 -> to_double z = z.
Proof.
  intros Hz. unfold to_double. cbv zeta.
  apply Z.leb_le in Hz. now rewrite Hz.
Qed.

Lemma parseInt_pretty (n : N) :
  Z.of_N n <= 2 ^ 53 -> parseInt (pretty n) = Int (Z.of_N n).
Proof.
  intros Hn.
  unfold pretty, pretty_N. destruct (decide (n = 0%N)) as [->|Hne]; [reflexivity|].
  assert (Hpos : (0 < n)%N) by lia.
  destruct (pretty_N_go_starts_with_digit n "" Hpos) as (d & rest & Hd & Heq).
  rewrite Heq, parseInt_digit_first by assumption. rewrite <- Heq.
  destruct (leading_digits_pretty_N_go n Hpos) as [p Hp].
  rewrite Hp. f_equal. cbn [default].
  replace (p * 0 + Z.of_N n) with (Z.of_N n) by lia.
  apply to_double_exact. lia.
Qed.

(** X9. A [retry-after] header that holds a number of seconds in
    decimal digits gives a delay of that many seconds, to the
    millisecond, as long as the delay in milliseconds is at most 2^53:
    up to there neither the number read nor its product with 1000 is
    rounded. *)
Theorem retry_after_seconds (hdrs : gmap string string) (n : N) :
  Z.of_N n * 1000 <= 2 ^ 53 ->
  hdrs !! "retry-after" = Some (pretty n) ->
  number_mul (parseInt (retry_after_text hdrs)) (Int 1000) = Int (Z.of_N n * 1000).
Proof.
  intros Hbound Hn. unfold retry_after_text. rewrite Hn. cbn [string_or].
  assert (Hne : pretty n <> "").
  { unfold pretty, pretty_N. destruct (decide (n = 0%N)); [discriminate|].
    destruct (pretty_N_go_starts_with_digit n "" ltac:(lia)) as (d & rest & _ & ->).
    discriminate. }
  apply String.eqb_neq in Hne. rewrite Hne, parseInt_pretty by lia.
  cbn [number_mul]. f_equal. apply to_double_exact. lia.
Qed.

Lemma total_ms_backoff (n : nat) (attempt : Z) :
  0 <= attempt ->
  total_ms (backoff n attempt)
  = Int ((2 ^ (attempt + Z.of_nat n) - 2 ^ attempt) * 1000).
Proof.
  revert attempt. induction n as [|n IH]; intros attempt Hge.
  - cbn. f_equal. rewrite Z.add_0_r. lia.
  - cbn [backoff total_ms fold_right]. fold (total_ms (backoff n (attempt + 1))).
    rewrite IH by lia. cbn [number_add]. f_equal.
    replace (attempt + 1 + Z.of_nat n) with (attempt + Z.of_nat (S n)) by lia.
    rewrite (Z.pow_add_r 2 attempt 1) by lia. lia.
Qed.

Section Delays.

Context {platform : Platform}.
Variable net : nat -> raw_outcome.

(** X11. When every call fails at transport level, a dispatch that
    starts with nothing slept has slept [2^retries - 1] seconds in all
    when it gives up (7 seconds with the default 3 retries). *)
Theorem failing_network_total_sleep method path data overrides st :
  (forall n, transport_error (net n) <> None) ->
  is_Some (URL_parse (baseURL (this st) +:+ path)) ->
  0 <= retries (this st) ->
  sleeps (log st) = [] ->
  total_ms (sleeps (log (snd (request net method path data overrides st))))
  = Int ((2 ^ retries (this st) - 1) * 1000).
Proof.
  intros Hfail [url Hurl] Hge Hnone.
  rewrite (request_run _ _ _ _ _ _ _ Hurl).
  destruct (request_loop net _ _ _ 0 ExnUndefined st) as [r st'] eqn:Hrun.
  apply request_loop_all_failures in Hrun; try assumption; try lia.
  destruct Hrun as [Hsleeps _]. cbn [snd].
  rewrite Hsleeps, Hnone, Z.sub_0_r. cbn [app].
  rewrite total_ms_backoff by lia. f_equal. rewrite Z.add_0_l, Z2Nat.id by lia.
  reflexivity.
Qed.

End Delays.

(** ** More on the wrappers *)

Lemma query_delimiters (params : list (string * string)) :
  let query := URLSearchParams_toString params in
  count_char "?" query = O
  /\ count_char "&" query = (length params - 1)%nat
  /\ count_char "=" query = length params
  /\ count_char "#" query = O.
Proof.
  unfold URLSearchParams_toString. cbv zeta.
  induction params as [|kv params (IH1 & IH2 & IH3 & IH4)]; [repeat split|].
  destruct (urlencode_pair_delimiters kv) as (H1 & H2 & H3 & H4).
  cbn [map String.concat length]. destruct params as [|kv' params].
  - cbn [map]. repeat split; assumption.
  - cbn [map] in *. rewrite !count_char_app, H1, H2, H3, H4, IH1, IH2, IH3, IH4.
    cbn [length]. repeat split; cbn; lia.
Qed.

Section MoreWrappers.

Context {platform : Platform}.
Variable net : nat -> raw_outcome.

(** X16. Whatever the names and values of the options, the path
    [templates.list] asks for has one [?] when there are options and none
    otherwise, one [=] per option, one [&] between two options, and no
    [#]: no option can add a parameter or cut the query short. *)
Theorem templates_list_delimiters (options : list (string * string)) st :
  exists path,
    TemplatesClient_list net options st = request net "GET" path JNull [] st
    /\ count_char "?" path = (if options is [] then 0 else 1)%nat
    /\ count_char "&" path = (length options - 1)%nat
    /\ count_char "=" path = length options
    /\ count_char "#" path = O.
Proof.
  unfold TemplatesClient_list. cbv zeta.
  destruct (query_delimiters options) as (H1 & H2 & H3 & H4).
  destruct (String.eqb_spec (URLSearchParams_toString options) "") as [He|Hne].
  - apply URLSearchParams_toString_empty in He. subst options.
    cbn [negb]. eexists. split; [reflexivity|]. repeat split.
  - cbn [negb]. eexists. split; [reflexivity|].
    rewrite !count_char_app, H1, H2, H3, H4.
    destruct options as [|kv options]; [now contradiction Hne|].
    repeat split.
Qed.

(** X14. Ingesting the same event object twice keeps the first
    timestamp: once a call of [events.ingest] is over (the clock never
    gives an empty text), a second call on the same object sends the
    object as the first call left it, and leaves the caller's objects
    as they are. *)
Theorem ingest_twice_keeps_timestamp now1 now2 event st o :
  heap st !! event = Some o ->
  now1 <> "" ->
  let st1 := snd (EventsClient_ingest net now1 event st) in
  exists o1,
    heap st1 !! event = Some o1
    /\ truthy (get_field o1 "occurred_at") = true
    /\ EventsClient_ingest net now2 event st1
       = request net "POST" "/api/v1/events" (JObj o1) [] st1
    /\ heap (snd (EventsClient_ingest net now2 event st1)) = heap st1.
Proof.
  intros Hev Hnow st1.
  assert (Hfirst : exists o1, heap st1 !! event = Some o1
                              /\ truthy (get_field o1 "occurred_at") = true).
  { subst st1. rewrite (ingest_run _ _ _ _ _ Hev).
    destruct (truthy (get_field o "occurred_at")) eqn:Ht.
    - destruct (request net _ _ _ _ st) as [r st'] eqn:Hrun.
      apply request_frame in Hrun. destruct Hrun as (_ & Hheap & _).
      cbn [snd]. rewrite Hheap. eauto.
    - match goal with |- context [request net ?m ?p ?d ?ov ?s] =>
        destruct (request net m p d ov s) as [r st'] eqn:Hrun end.
      apply request_frame in Hrun. destruct Hrun as (_ & Hheap & _).
      cbn [snd]. rewrite Hheap. cbn [heap]. rewrite lookup_alter_eq, Hev. cbn.
      eexists. split; [reflexivity|].
      unfold get_field. rewrite lookup_set_field_eq. cbn.
      apply String.eqb_neq in Hnow. now rewrite Hnow. }
  destruct Hfirst as (o1 & Ho1 & Ht1). exists o1.
  repeat split; try assumption.
  - rewrite (ingest_run _ _ _ _ _ Ho1), Ht1. reflexivity.
  - rewrite (ingest_run _ _ _ _ _ Ho1), Ht1.
    destruct (request net _ _ _ _ st1) as [r st'] eqn:Hrun.
    apply request_frame in Hrun. destruct Hrun as (_ & Hheap & _). exact Hheap.
Qed.

End MoreWrappers.

(** ** Recovery, and the frame of the wrappers *)

Section Recovery.

Context {platform : Platform}.
Variable net : nat -> raw_outcome.

Lemma request_loop_recovers ro body status hdrs chunks :
  200 <= status < 300 ->
  forall (k : nat) fuel attempt lastError st,
  (forall i, (i < k)%nat -> transport_error (net (calls st + i)%nat) <> None) ->
  net (calls st + k)%nat = RawResponse status hdrs chunks ->
  attempt + Z.of_nat k <= retries (this st) ->
  (k < fuel)%nat ->
  exists st',
    request_loop net fuel ro body attempt lastError st
    = (Normal (parse_body (received chunks)), st')
    /\ calls st' = S (calls st + k)
    /\ sleeps (log st') = sleeps (log st) ++ backoff k attempt.
Proof.
  intros H2xx. induction k as [|k IH]; intros fuel attempt lastError st Hfail Hok Hle Hfuel;
    (destruct fuel as [|fuel]; [lia|]); rewrite request_loop_step;
    (replace (attempt <=? retries (this st)) with true by lia).
  - rewrite Nat.add_0_r in Hok.
    rewrite (attempt_once_response _ _ _ _ _ _ _ _ _ Hok). cbv zeta.
    replace ((200 <=? status) && (status <? 300)) with true by lia.
    eexists. split; [reflexivity|].
    cbn [calls log logged called after_call]. split; [lia|].
    rewrite sleeps_app. cbn. now rewrite !app_nil_r.
  - destruct (transport_error (net (calls st))) as [e|] eqn:Hnet.
    2:{ exfalso. apply (Hfail O); [lia|]. now rewrite Nat.add_0_r. }
    rewrite (attempt_once_failure _ _ _ _ _ _ _ Hnet). cbv zeta.
    replace (attempt <? retries (this st)) with true by lia.
    destruct (IH fuel (attempt + 1) (Exn e)
                (logged (Sleep (Int (2 ^ attempt * 1000))) (after_call ro body st)))
      as (st' & Hrun & Hcalls & Hsleeps).
    + intros i Hi. cbn [calls logged called after_call].
      replace (S (calls st) + i)%nat with (calls st + S i)%nat by lia.
      apply Hfail. lia.
    + cbn [calls logged called after_call].
      replace (S (calls st) + k)%nat with (calls st + S k)%nat by lia. exact Hok.
    + cbn [this logged called after_call]. lia.
    + lia.
    + exists st'. split; [exact Hrun|].
      cbn [calls log logged called after_call] in Hcalls, Hsleeps.
      split; [lia|]. rewrite Hsleeps, !sleeps_app. cbn [sleeps backoff].
      now rewrite app_nil_r, <- app_assoc.
Qed.

(** X18. Transient failures are hidden from the caller: when the first
    [k] calls of a dispatch fail at transport level, [k] is at most the
    retry count, and the next call is answered 2xx, the dispatch returns
    the parsed body of that answer after [k + 1] calls, having slept 1,
    2, 4, ... seconds between them. *)
Theorem request_recovers method path data overrides st (k : nat)
    status hdrs chunks :
  is_Some (URL_parse (baseURL (this st) +:+ path)) ->
  (forall i, (i < k)%nat -> transport_error (net (calls st + i)%nat) <> None) ->
  net (calls st + k)%nat = RawResponse status hdrs chunks ->
  200 <= status < 300 ->
  Z.of_nat k <= retries (this st) ->
  exists st',
    request net method path data overrides st
    = (Normal (parse_body (received chunks)), st')
    /\ calls st' = S (calls st + k)
    /\ sleeps (log st') = sleeps (log st) ++ backoff k 0.
Proof.
  intros [url Hurl] Hfail Hok H2xx Hle.
  rewrite (request_run _ _ _ _ _ _ _ Hurl).
  apply (request_loop_recovers _ _ status hdrs chunks H2xx k); try assumption; lia.
Qed.

(** X19. Apart from [events.ingest], no wrapper writes to the client or
    to the objects of the caller: after any of them the configuration
    and the caller's heap are as before. *)
Theorem wrappers_preserve_client_and_heap st (id : string) (d : jsvalue)
    (options : list (string * string)) :
  Forall (fun run : M jsvalue =>
            this (snd (run st)) = this st /\ heap (snd (run st)) = heap st)
    [EventsClient_ingestBatch net d;
     UsersClient_create net d; UsersClient_get net id; UsersClient_update net id d;
     UsersClient_delete net id; UsersClient_setChannelData net id d;
     UsersClient_setPreferences net id d; UsersClient_createBatch net d;
     FlowsClient_create net d;
     TemplatesClient_create net d; TemplatesClient_list net options;
     TemplatesClient_get net id; TemplatesClient_update net id d;
     WebhooksClient_create net d].
Proof.
  assert (Hreq : forall method path data,
             let st' := snd (request net method path data [] st) in
             this st' = this st /\ heap st' = heap st).
  { intros method path data.
    destruct (request net method path data [] st) as [r st'] eqn:Hrun.
    apply request_frame in Hrun. destruct Hrun as (Hthis & Hheap & _).
    cbn [snd]. now split. }
  repeat constructor; try apply Hreq.
Qed.

(** X20. The wrappers that read or delete ([users.get], [users.delete],
    [templates.get], [templates.list]) never write a body: each of their
    HTTP calls has the method GET, or DELETE for [users.delete], and
    writes nothing. *)
Theorem reading_wrappers_send_no_body st (id : string)
    (options : list (string * string)) :
  Forall (fun '(run, method) =>
            forall l o w,
              log (snd (run st)) = log st ++ l ->
              In (HttpRequest o w) l ->
              ro_method o = method /\ w = None)
    [(UsersClient_get net id, "GET"); (UsersClient_delete net id, "DELETE");
     (TemplatesClient_get net id, "GET"); (TemplatesClient_list net options, "GET")].
Proof.
  assert (Hreq : forall method path l o w,
             log (snd (request net method path JNull [] st)) = log st ++ l ->
             In (HttpRequest o w) l ->
             ro_method o = method /\ w = None).
  { intros method path l o w Hlog Hin.
    destruct (request net method path JNull [] st) as [r st'] eqn:Hrun.
    apply request_frame in Hrun. destruct Hrun as (_ & _ & _ & (l' & Hlog' & Hsent)).
    cbn [snd] in Hlog. rewrite Hlog in Hlog'. apply app_inv_head in Hlog'. subst l'.
    destruct (Hsent _ _ Hin) as (Hm & _ & Hw). split; assumption. }
  unfold UsersClient_get, UsersClient_delete, TemplatesClient_get,
    TemplatesClient_list. cbv zeta.
  repeat (constructor;
          [intros l o w Hlog Hin; exact (Hreq _ _ _ _ _ Hlog Hin)|]).
  constructor.
Qed.

End Recovery.

(** ** The further properties on concrete inputs *)

Lemma constructor_never_stores_falsy_witness :
  apiKey (client_of options_zero) <> ""
  /\ baseURL (client_of options_zero) <> ""
  /\ timeout (client_of options_zero) <> 0
  /\ retries (client_of options_zero) <> 0.
Proof.
  apply (constructor_never_stores_falsy options_zero). reflexivity.
Defined.

(** Two connections refused with a retry count of 1. *)
Lemma request_resends_same_request_witness :
  users_get_options (with_retries 1) "GET" = users_get_options (with_retries 1) "GET"
  /\ (None : option string) = None.
Proof.
  pose (run := request (platform := example_platform) net_refused
                 "GET" "/api/v1/users" JNull [] (start (with_retries 1) ∅)).
  apply (request_resends_same_request (platform := example_platform) net_refused
           "GET" "/api/v1/users" JNull [] (start (with_retries 1) ∅)
           (fst run) (snd run) (log (snd run))).
  - apply surjective_pairing.
  - reflexivity.
  - vm_compute. left. reflexivity.
  - vm_compute. right. right. left. reflexivity.
Defined.

Lemma request_sleeps_between_calls_witness :
  let st := start (with_retries 1) ∅ in
  let run := request (platform := example_platform) net_refused
               "GET" "/api/v1/users" JNull [] st in
  let l := log (snd run) in
  calls (snd run) = (calls st + count_requests l)%nat
  /\ (l = [] \/
      (count_requests l = S (length (sleeps l))
       /\ exists l' o w, l = l' ++ [HttpRequest o w])).
Proof.
  cbv zeta.
  apply (request_sleeps_between_calls (platform := example_platform) net_refused
           "GET" "/api/v1/users" JNull [] (start (with_retries 1) ∅)
           (fst (request (platform := example_platform) net_refused
                   "GET" "/api/v1/users" JNull [] (start (with_retries 1) ∅)))).
  - apply surjective_pairing.
  - reflexivity.
Defined.

(** A 429 with an HTTP date as [retry-after], then a 200. *)
Lemma rate_limit_retry_witness :
  let st := start default_client ∅ in
  let run := request (platform := example_platform) net_429_date
               "GET" "/api/v1/users" JNull [] st in
  let hdrs : gmap string string :=
    {[ "retry-after" := "Wed, 21 Oct 2015 07:28:00 GMT" ]} in
  (Z.of_nat 0 < retries (this st) ->
   exists ro w l1 l2,
     log (snd run) = log st ++ l1 ++ HttpRequest ro w
                 :: Sleep (number_mul (parseInt (retry_after_text hdrs)) (Int 1000))
                 :: HttpRequest ro w :: l2
     /\ count_requests l1 = 0%nat)
  /\ (retries (this st) <= Z.of_nat 0 ->
      fst run = Thrown (Exn (api_error (platform := example_platform) 429
                               (parse_body (platform := example_platform)
                                  (received (platform := example_platform)
                                     ["slow down"]))))
      /\ calls (snd run) = S (calls st + 0)).
Proof.
  cbv zeta.
  apply (rate_limit_retry (platform := example_platform) net_429_date
           "GET" "/api/v1/users" JNull [] (start default_client ∅)).
  - apply surjective_pairing.
  - vm_compute. lia.
  - reflexivity.
Defined.

Lemma failing_network_delays_witness :
  let st := start default_client ∅ in
  let st' := snd (request (platform := example_platform) net_refused
                    "GET" "/api/v1/users" JNull [] st) in
  sleeps (log st') = sleeps (log st) ++ backoff (Z.to_nat (retries (this st))) 0
  /\ calls st' = (calls st + Z.to_nat (retries (this st) + 1))%nat.
Proof.
  cbv zeta.
  apply (failing_network_delays (platform := example_platform) net_refused
           "GET" "/api/v1/users" JNull [] (start default_client ∅)).
  - intros n. discriminate.
  - vm_compute. eauto.
  - vm_compute. discriminate.
Defined.

Lemma failing_network_total_sleep_witness :
  let st := start default_client ∅ in
  total_ms (sleeps (log (snd (request (platform := example_platform) net_refused
                                "GET" "/api/v1/users" JNull [] st))))
  = Int ((2 ^ retries (this st) - 1) * 1000).
Proof.
  cbv zeta.
  apply (failing_network_total_sleep (platform := example_platform) net_refused
           "GET" "/api/v1/users" JNull [] (start default_client ∅)).
  - intros n. discriminate.
  - vm_compute. eauto.
  - vm_compute. discriminate.
  - reflexivity.
Defined.

(** A DELETE with a payload: the payload is not sent. *)
Lemma request_without_body_witness :
  (None : option string) = None
  /\ lookup_field "Content-Length" (ro_headers (users_get_options default_client "DELETE"))
     = lookup_field "Content-Length" [].
Proof.
  pose (run := request (platform := example_platform) net_204
                 "DELETE" "/api/v1/users" payload_a_1 [] (start default_client ∅)).
  apply (request_without_body (platform := example_platform) net_204
           "DELETE" "/api/v1/users" payload_a_1 [] (start default_client ∅)
           (fst run) (snd run) (log (snd run))).
  - apply surjective_pairing.
  - reflexivity.
  - vm_compute. left. reflexivity.
  - vm_compute. apply NoDup_nil_2.
  - right. split; discriminate.
Defined.

Lemma ingest_twice_keeps_timestamp_witness :
  let st := start default_client {[ 1%positive := event_plain ]} in
  let st1 := snd (EventsClient_ingest (platform := example_platform)
                    net_204 clock 1%positive st) in
  exists o1,
    heap st1 !! 1%positive = Some o1
    /\ truthy (get_field o1 "occurred_at") = true
    /\ EventsClient_ingest (platform := example_platform) net_204
         "2026-01-01T00:00:00.000Z" 1%positive st1
       = request (platform := example_platform) net_204
           "POST" "/api/v1/events" (JObj o1) [] st1
    /\ heap (snd (EventsClient_ingest (platform := example_platform) net_204
                    "2026-01-01T00:00:00.000Z" 1%positive st1))
       = heap st1.
Proof.
  cbv zeta.
  apply (ingest_twice_keeps_timestamp (platform := example_platform) net_204
           clock "2026-01-01T00:00:00.000Z" 1%positive
           (start default_client {[ 1%positive := event_plain ]}) event_plain).
  - reflexivity.
  - discriminate.
Defined.

Lemma request_result_of_last_call_witness :
  let st := start default_client ∅ in
  let run := request (platform := example_platform) net_500
               "GET" "/api/v1/users" JNull [] st in
  match net_500 (calls (snd run) - 1)%nat with
  | RawResponse status hdrs chunks =>
      let d := parse_body (platform := example_platform)
                 (received (platform := example_platform) chunks) in
      if (200 <=? status) && (status <? 300) then fst run = Normal d
      else fst run = Thrown (Exn (api_error (platform := example_platform) status d))
  | RawError message => fst run = Thrown (Exn (Error message))
  | RawTimeout => fst run = Thrown (Exn (Error "Request timeout"))
  end.
Proof.
  cbv zeta.
  apply (request_result_of_last_call (platform := example_platform) net_500
           "GET" "/api/v1/users" JNull [] (start default_client ∅)).
  - apply surjective_pairing.
  - vm_compute. lia.
Defined.

(** One connection reset, then a 200 with the empty object. *)
Lemma request_recovers_witness :
  let st := start default_client ∅ in
  exists st',
    request (platform := example_platform)
      (fun n => match n with O => RawError "ECONNRESET" | S _ => RawResponse 200 ∅ ["{}"] end)
      "GET" "/api/v1/users" JNull [] st
    = (Normal (parse_body (platform := example_platform)
                 (received (platform := example_platform) ["{}"])), st')
    /\ calls st' = S (calls st + 1)
    /\ sleeps (log st') = sleeps (log st) ++ backoff 1 0.
Proof.
  cbv zeta.
  apply (request_recovers (platform := example_platform)
           (fun n => match n with O => RawError "ECONNRESET" | S _ => RawResponse 200 ∅ ["{}"] end)
           "GET" "/api/v1/users" JNull [] (start default_client ∅) 1 200 ∅ ["{}"]).
  - vm_compute. eauto.
  - intros i Hi. replace i with O by lia. discriminate.
  - reflexivity.
  - lia.
  - vm_compute. discriminate.
Defined.

Lemma retry_after_seconds_witness :
  number_mul (parseInt (retry_after_text {[ "retry-after" := "120" ]})) (Int 1000)
  = Int (Z.of_N 120 * 1000).
Proof.
  apply (retry_after_seconds {[ "retry-after" := "120" ]} 120).
  - vm_compute. discriminate.
  - reflexivity.
Defined.

(** A 500 response whose [message] is an object with a field [toString],
    with a retry count of 1: the first call is followed by a sleep of one
    second and a second call. *)
Lemma unconvertible_message_is_retried_witness :
  let st := start (with_retries 1) ∅ in
  let run := request (platform := example_platform) net_500_object
               "GET" "/api/v1/users/u1" JNull [] st in
  (Z.of_nat 0 < retries (this st) ->
   exists ro w l1 l2,
     log (snd run) = log st ++ l1 ++ HttpRequest ro w
                 :: Sleep (Int (2 ^ Z.of_nat 0 * 1000)) :: HttpRequest ro w :: l2
     /\ count_requests l1 = 0%nat)
  /\ (retries (this st) <= Z.of_nat 0 ->
      fst run = Thrown (Exn (TypeError "Cannot convert object to primitive value"))
      /\ calls (snd run) = S (calls st + 0)).
Proof.
  cbv zeta.
  apply (unconvertible_message_is_retried (platform := example_platform)
           net_500_object "GET" "/api/v1/users/u1" JNull []
           (start (with_retries 1) ∅) _ _ 0 500 ∅ [text_message_object]).
  - apply surjective_pairing.
  - vm_compute. lia.
  - reflexivity.
  - right. lia.
  - lia.
  - reflexivity.
Defined.
